(** * httpExecutor: request / redirect / download pipeline

    A shallow embedding of
    [packages/builder-util-runtime/src/httpExecutor.ts] and the properties
    of its redirect handling, header redaction, checksum selection and
    stream pipeline.

    Conventions of the embedding.
    - A JavaScript string is a [string]; its characters stand for the
      code units of the source string.
    - [x == null] (null or undefined, an absent property) is [None].
    - A JavaScript object used as a header mapping of a request is a
      [gmap string _]; a property that is absent and a property that
      holds [undefined] are not told apart, as every test of the source
      is [== null]. The header object of a response keeps its insertion
      order (it is printed), so it is an association list.
    - A function that can throw returns a [Result].
    - The host platform (URL parsing, hashing, JSON text, the stream
      library) is not part of the file: its functions are variables of
      the sections below, and the stream contract used by [pipe] is
      written out where the pipeline is defined. *)

From Stdlib Require Import ZArith String Ascii List Bool Lia DecimalString.
From stdpp Require Import gmap strings list fin_maps.
Import ListNotations.

Set Warnings "-register-all".

Local Open Scope string_scope.
Local Open Scope list_scope.

(** ** String primitives of the host language *)

Module JsString.

(** [s.startsWith(search)] *)
Definition startsWith (s search : string) : bool := String.prefix search s.

(** [s.endsWith(search)]: the substring of [s] that starts at
    [s.length - search.length] is [search]; false when that start would
    be negative. *)
Definition endsWith (s search : string) : bool :=
  let len := String.length s in
  let n := String.length search in
  if (n <=? len)%nat
  then String.eqb (String.substring (len - n) n s) search
  else false.

(** [s.includes(search)]: [search] starts at some position of [s]. *)
Fixpoint includes (s search : string) : bool :=
  String.prefix search s ||
  match s with
  | EmptyString => false
  | String _ s' => includes s' search
  end.

(** The code units of a string, in order. *)
Fixpoint chars (s : string) : list ascii :=
  match s with
  | EmptyString => []
  | String c s' => c :: chars s'
  end.

(** The text of an integer inside a template literal. *)
Definition ofZ (z : Z) : string := NilEmpty.string_of_int (Z.to_int z).

Definition ofNat (n : nat) : string := NilEmpty.string_of_uint (Nat.to_uint n).

(** [`${x}`] for a value that may be absent. The embedding does not tell
    null from undefined: an absent value prints as [undefined] here,
    where the code prints [null] for a property that holds null (as
    [url.parse] leaves it). A text built with it is the text of the code
    wherever the printed values are present, and the properties below
    state texts only there. *)
Definition template (x : option string) : string := default "undefined" x.

(** [x || fallback] on strings: the empty string is falsy. *)
Definition orElse (x : option string) (fallback : string) : string :=
  match x with
  | Some s => if String.eqb s "" then fallback else s
  | None => fallback
  end.

Definition newline : string := String (ascii_of_nat 10) "".
Definition quote : string := String (ascii_of_nat 34) "".

End JsString.

Import JsString.

(** ** Values and errors *)

(** A JSON-shaped value, as [JSON.stringify] sees it. *)
Inductive Json :=
| JNull
| JBool (b : bool)
| JNum (n : Z)
| JStr (s : string)
| JArr (items : list Json)
| JObj (members : list (string * Json)).

(** The errors that reach a [reject] or a [callback]. *)
Inductive JsError :=
| PlainError (message : string)
| CodedError (message code : string)
| TypeError (message : string)
| HttpError (statusCode : Z) (message : string) (description : option Json)
| CancellationError.

(** The outcome of a call that can throw. *)
Inductive Result (A : Type) :=
| Ok (value : A)
| Throw (error : JsError).
Arguments Ok {A} value.
Arguments Throw {A} error.

(** [newError(message, code)] of [./index]: an [Error] that carries a
    [code]. *)
Definition newError (message code : string) : JsError := CodedError message code.

Definition errorCode (e : JsError) : option string :=
  match e with
  | CodedError _ code => Some code
  | _ => None
  end.

(** ** Requests and responses *)

(** A value of [OutgoingHttpHeaders]. *)
Inductive HeaderValue :=
| HStr (s : string)
| HNum (n : Z)
| HList (l : list string).

Inductive PortValue :=
| PortNum (n : Z)
| PortStr (s : string).

(** [RequestOptions]. [others] holds the own properties that this file
    neither reads nor writes (agent, auth, timeout, ...). *)
Record RequestOptions := mkRequestOptions {
  protocol : option string;
  hostname : option string;
  port : option PortValue;
  path : option string;
  method : option string;
  headers : option (gmap string HeaderValue);
  gzip : bool;
  others : gmap string string
}.

(** The result of the legacy [url.parse]. *)
Record UrlObject := mkUrlObject {
  urlProtocol : option string;
  urlHostname : option string;
  urlPort : option string;
  urlPath : option string
}.

(** A header of an incoming message: one string, or a list of them. *)
Inductive ResponseHeader :=
| Single (s : string)
| Multi (l : list string).

Record Response := mkResponse {
  statusCode : option Z;
  statusMessage : option string;
  responseHeaders : list (string * ResponseHeader);
  body : list string
}.

(** [o[key]] on an object kept as an association list. *)
Fixpoint getProperty {A : Type} (key : string) (o : list (string * A)) : option A :=
  match o with
  | [] => None
  | (k, v) :: rest => if String.eqb k key then Some v else getProperty key rest
  end.

(** [safeGetHeader]: of a list-valued header the last element counts,
    and an empty list is no header. *)
Definition safeGetHeader (response : Response) (headerKey : string) : option string :=
  match getProperty headerKey (responseHeaders response) with
  | None => None
  | Some (Multi value) => last value
  | Some (Single value) => Some value
  end.

(** [response.statusCode >= n]; false when there is no status code. *)
Definition statusAtLeast (response : Response) (n : Z) : bool :=
  match statusCode response with
  | Some c => (n <=? c)%Z
  | None => false
  end.

(** ** Redaction of sensitive names *)

Definition placeholder : string := "<stripped sensitive data>".

(** The test of the replacer in [safeStringifyJson]. *)
Definition isSensitiveName (skippedNames : option (gset string)) (name : string) : bool :=
  endsWith name "authorization"
  || endsWith name "Password"
  || endsWith name "PASSWORD"
  || endsWith name "Token"
  || includes name "password"
  || includes name "token"
  || match skippedNames with
     | Some names => bool_decide (name ∈ names)
     | None => false
     end.

(** What [JSON.stringify(data, replacer, 2)] serializes for the property
    [name] whose value is [value]: the replacer is called first; when it
    returns the value itself and that value is an object or an array, its
    properties are visited the same way, an array element under the
    decimal text of its index. *)
Fixpoint replaceProperty (skippedNames : option (gset string))
    (name : string) (value : Json) {struct value} : Json :=
  if isSensitiveName skippedNames name then JStr placeholder
  else
    match value with
    | JArr items =>
        JArr ((fix elements (i : nat) (l : list Json) : list Json :=
                 match l with
                 | [] => []
                 | v :: l' => replaceProperty skippedNames (ofNat i) v :: elements (S i) l'
                 end) 0%nat items)
    | JObj members =>
        JObj ((fix properties (l : list (string * Json)) : list (string * Json) :=
                 match l with
                 | [] => []
                 | (k, v) :: l' => (k, replaceProperty skippedNames k v) :: properties l'
                 end) members)
    | _ => value
    end.

(** The value under the root holder: its name is the empty string. *)
Definition redact (skippedNames : option (gset string)) (data : Json) : Json :=
  replaceProperty skippedNames "" data.

Definition jsonOfResponseHeader (h : ResponseHeader) : Json :=
  match h with
  | Single s => JStr s
  | Multi l => JArr (map JStr l)
  end.

Definition jsonOfResponseHeaders (hs : list (string * ResponseHeader)) : Json :=
  JObj (map (fun kv => (fst kv, jsonOfResponseHeader (snd kv))) hs).

(** ** Digest transform parameters *)

Inductive Encoding := Hex | Base64 | Latin1.

(** The encoding argument that [configurePipes] passes to the SHA-512
    [DigestTransform]:
    [sha512.length === 128 && !sha512.includes("+") && !sha512.includes("Z")
       && !sha512.includes("=") ? "hex" : "base64"]. *)
Definition sha512Encoding (sha512 : string) : Encoding :=
  if (String.length sha512 =? 128)%nat
     && negb (includes sha512 "+")
     && negb (includes sha512 "Z")
     && negb (includes sha512 "=")
  then Hex else Base64.

(** The rule in the words of the specification: hex when the string is
    exactly 128 characters long and none of its characters is one of
    [+], [Z], [=]; base64 otherwise. *)
Definition isForbiddenHexChar (c : ascii) : bool :=
  Ascii.eqb c "+" || Ascii.eqb c "Z" || Ascii.eqb c "=".


(** [DownloadOptions]. [onProgress] is a function of the caller; only
    its presence matters here. *)
Record DownloadOptions := mkDownloadOptions {
  downloadHeaders : option (gmap string HeaderValue);
  skipDirCreation : bool;
  sha2 : option string;
  sha512 : option string;
  onProgress : bool
}.

(** [checkSha2]: [None] when it returns [true]; [Some e] when it calls
    [callback(e)] and returns [false]. The test of the inner branch is
    the one the source writes, under the outer test the source writes. *)
Definition checkSha2 (sha2Header sha2 : option string) : option JsError :=
  if bool_decide (is_Some sha2Header) && bool_decide (is_Some sha2) then
    if negb (bool_decide (is_Some sha2Header)) then
      Some (PlainError
        "checksum is required, but server response doesn't contain X-Checksum-Sha2 header")
    else if negb (bool_decide (sha2Header = sha2)) then
      Some (PlainError ("checksum mismatch: expected " +:+ template sha2
                        +:+ " but got " +:+ template sha2Header
                        +:+ " (X-Checksum-Sha2 header)"))
    else None
  else None.

(** A chunk of a body: a buffer of bytes. *)
Definition Chunk : Type := list Byte.byte.

(** ** A small platform to run the model on *)

Module Fixture.

(** The URLs of the examples, parsed as [url.parse] parses them; any
    other text is taken as a bare path. *)
Definition parseUrl (url : string) : UrlObject :=
  if String.eqb url "https://bucket.s3.amazonaws.com/file" then
    mkUrlObject (Some "https:") (Some "bucket.s3.amazonaws.com") None (Some "/file")
  else if String.eqb url "https://other.example.com/file" then
    mkUrlObject (Some "https:") (Some "other.example.com") None (Some "/file")
  else if String.eqb url "http://mirror.example.com:8080/file" then
    mkUrlObject (Some "http:") (Some "mirror.example.com") (Some "8080") (Some "/file")
  else mkUrlObject None None None (Some url).

(** [new URL(url).hostname]: the constructor throws on a bare path. *)
Definition hostnameOfURL (url : string) : option string := urlHostname (parseUrl url).

(** A compact rendering of a value, without escapes. *)
Fixpoint stringify (v : Json) : string :=
  match v with
  | JNull => "null"
  | JBool b => if b then "true" else "false"
  | JNum n => ofZ n
  | JStr s => quote +:+ s +:+ quote
  | JArr items =>
      "[" +:+ fold_right (fun x acc => stringify x +:+ "," +:+ acc) "" items +:+ "]"
  | JObj members =>
      "{" +:+ (fix go (l : list (string * Json)) : string :=
                 match l with
                 | [] => ""
                 | (k, x) :: l' => quote +:+ k +:+ quote +:+ ":" +:+ stringify x +:+ "," +:+ go l'
                 end) members +:+ "}"
  end.

Definition parseJsonText (text : string) : Result Json := Ok (JStr text).

Definition gunzip (chunks : list string) : Result (list string) := Ok chunks.

(** A toy hash: the sum of the bytes modulo 65536, whatever the
    algorithm, printed in decimal, whatever the encoding. *)
Definition Hash : Type := N.
Definition createHash (algorithm : string) : Hash := 0%N.
Definition update (h : Hash) (chunk : Chunk) : Hash :=
  fold_left (fun acc b => ((acc + Byte.to_N b) mod 65536)%N) chunk h.
Definition digest (h : Hash) (encoding : Encoding) : string := ofZ (Z.of_N h).

(** A redirect response, and a response that carries a body. *)
Definition redirectTo (location : string) : Response :=
  mkResponse (Some 302%Z) (Some "Found") [("location", Single location)] [].

Definition okResponse : Response :=
  mkResponse (Some 200%Z) (Some "OK") [("content-type", Single "text/plain")] ["hello"].

(** A request to [api.example.com:8443] that carries a token. *)
Definition apiOptions : RequestOptions :=
  mkRequestOptions (Some "https:") (Some "api.example.com") (Some (PortNum 8443))
    (Some "/repos/releases") (Some "PUT")
    (Some (<["authorization" := HStr "token XYZ"]>
             (<["Cache-Control" := HStr "max-age=0"]> ∅)))
    false ∅.

(** A request without credentials. *)
Definition plainOptions : RequestOptions :=
  mkRequestOptions (Some "https:") (Some "api.example.com") None (Some "/file")
    None None false ∅.

Definition noChecksum : DownloadOptions := mkDownloadOptions None false None None false.

Definition withSha512 : DownloadOptions :=
  mkDownloadOptions None false None (Some "999") false.

Definition withSha2 : DownloadOptions :=
  mkDownloadOptions None false (Some "abc") None false.

(** A response that advertises a SHA-256 checksum. *)
Definition sha2Response (checksum : string) : Response :=
  mkResponse (Some 200%Z) (Some "OK") [("X-Checksum-Sha2", Single checksum)] [].

(** A chain of [n] redirects that ends in a response with a body. *)
Definition redirectChain (n : nat) : list Response :=
  replicate n (redirectTo "https://other.example.com/file") ++ [okResponse].

(** A request whose token is under the capitalised header name. *)
Definition capitalisedOptions : RequestOptions :=
  mkRequestOptions (Some "https:") (Some "api.example.com") None (Some "/file")
    None (Some (<["Authorization" := HStr "token XYZ"]> ∅)) false ∅.

(** A request that carries basic credentials. *)
Definition basicOptions : RequestOptions :=
  mkRequestOptions (Some "https:") (Some "api.example.com") None (Some "/file")
    None (Some (<["authorization" := HStr "Basic dXNlcg"]> ∅)) false ∅.

(** The length of the rendering, for the length of the encoded body. *)
Definition encodedLength (data : Json) : Z := Z.of_nat (String.length (stringify data)).

(** A response that refuses the request, with a [location] all the same. *)
Definition forbiddenResponse : Response :=
  mkResponse (Some 403%Z) (Some "Forbidden")
    [("location", Single "https://other.example.com/file")] [].

End Fixture.

(** ** The executor *)

Definition maxRedirects : Z := 10.

(** [x++] used as an expression: the value it yields, and the value the
    variable holds afterwards. *)
Definition postIncrement (x : Z) : Z * Z := (x, (x + 1)%Z).

Definition setHeaders (options : RequestOptions) (hs : gmap string HeaderValue) : RequestOptions :=
  mkRequestOptions (protocol options) (hostname options) (port options) (path options)
    (method options) (Some hs) (gzip options) (others options).

(** What one call of [doRequest] was given, with the hop counter of the
    call that issued it. *)
Record Issued := mkIssued {
  issuedOptions : RequestOptions;
  issuedRedirectCount : Z
}.

Inductive ApiOutcome :=
| Resolved (data : option string)
| Rejected (error : JsError)
| NoResponse.

Record ApiRun := mkApiRun {
  apiIssued : list Issued;
  apiOutcome : ApiOutcome
}.

Section Platform.

(** [url.parse(url)]. *)
Variable parseUrl : string -> UrlObject.
(** [new URL(url).hostname]; [None] when the constructor throws. *)
Variable hostnameOfURL : string -> option string.
(** [process.versions.electron != null]. *)
Variable isElectron : bool.
(** [JSON.stringify(value, null, 2)], the text of a value once the
    replacer has been applied. *)
Variable stringify : Json -> string.
(** [JSON.parse]. *)
Variable parseJsonText : string -> Result Json.
(** The text that [createGunzip] delivers for a body. *)
Variable gunzip : list string -> Result (list string).

Definition configureRequestOptions (options : RequestOptions)
    (token : option string) (method' : option string) : RequestOptions :=
  let method1 := match method' with Some m => Some m | None => method options end in
  let headers0 := default ∅ (headers options) in
  let headers1 :=
    match token with
    | Some t => <["authorization" :=
                   HStr (if startsWith t "Basic" then t else "token " +:+ t)]> headers0
    | None => headers0
    end in
  let headers2 :=
    if bool_decide (headers1 !! "User-Agent" = None)
    then <["User-Agent" := HStr "electron-builder"]> headers1
    else headers1 in
  let headers3 :=
    if bool_decide (method' = None) || bool_decide (method' = Some "GET")
       || bool_decide (headers2 !! "Cache-Control" = None)
    then <["Cache-Control" := HStr "no-cache"]> headers2
    else headers2 in
  let protocol1 :=
    if bool_decide (protocol options = None) && isElectron
    then Some "https:"
    else protocol options in
  mkRequestOptions protocol1 (hostname options) (port options) (path options)
    method1 (Some headers3) (gzip options) (others options).

Definition configureRequestOptionsFromUrl (url : string) (options : RequestOptions)
    : RequestOptions :=
  let parsedUrl := parseUrl url in
  let port1 :=
    match urlPort parsedUrl with
    | None => None
    | Some p => Some (PortStr p)
    end in
  configureRequestOptions
    (mkRequestOptions (urlProtocol parsedUrl) (urlHostname parsedUrl) port1
       (urlPath parsedUrl) (method options) (headers options) (gzip options)
       (others options))
    None None.

(** [HttpExecutor.prepareRedirectUrlOptions]. The spread [{...options}]
    copies the option object but not its header object: what is written
    to or deleted from the headers here is also seen through the prior
    options. The value returned is what is modelled. *)
Definition prepareRedirectUrlOptions (redirectUrl : string) (options : RequestOptions)
    : Result RequestOptions :=
  let newOptions := configureRequestOptionsFromUrl redirectUrl options in
  match headers newOptions with
  | None => Ok newOptions
  | Some hs =>
      match hs !! "authorization" with
      | None => Ok newOptions
      | Some (HStr authorization) =>
          if startsWith authorization "token" then
            match hostnameOfURL redirectUrl with
            | None => Throw (TypeError "Invalid URL")
            | Some parsedNewUrlHostname =>
                if endsWith parsedNewUrlHostname ".amazonaws.com"
                then Ok (setHeaders newOptions (delete "authorization" hs))
                else Ok newOptions
            end
          else Ok newOptions
      | Some _ => Throw (TypeError "headers.authorization.startsWith is not a function")
      end
  end.

Definition safeStringifyJson (data : Json) (skippedNames : option (gset string)) : string :=
  stringify (redact skippedNames data).

Definition createHttpError (response : Response) (description : option Json) : JsError :=
  HttpError
    (match statusCode response with
     | Some c => if (c =? 0)%Z then (-1)%Z else c
     | None => (-1)%Z
     end)
    (template (ofZ <$> statusCode response) +:+ " " +:+ template (statusMessage response)
     +:+ match description with
         | None | Some JNull => ""
         | Some d => newline +:+ stringify d
         end
     +:+ newline +:+ "Headers: "
     +:+ safeStringifyJson (jsonOfResponseHeaders (responseHeaders response)) None)
    description.

Definition notFoundDescription (options : RequestOptions) : string :=
  "method: " +:+ template (method options) +:+ " url: "
  +:+ orElse (protocol options) "https:" +:+ "//" +:+ template (hostname options)
  +:+ template (path options) +:+ newline +:+ newline
  +:+ "Please double check that your authentication token is correct. Due to security reasons actual status maybe not reported, but 404."
  +:+ newline.

(** The body of a response is read to its end and classified by the
    status code. *)
Definition readBody (response : Response) (options : RequestOptions) : ApiOutcome :=
  match (if gzip options then gunzip (body response) else Ok (body response)) with
  | Throw e => Rejected e
  | Ok chunks =>
      let data := fold_left String.append chunks "" in
      if statusAtLeast response 400 then
        let contentType := safeGetHeader response "content-type" in
        let isJson :=
          match contentType with
          | Some t => includes t "json"
          | None => false
          end in
        if isJson then
          match parseJsonText data with
          | Ok d => Rejected (createHttpError response (Some d))
          | Throw e => Rejected e
          end
        else Rejected (createHttpError response (Some (JStr data)))
      else Resolved (if (String.length data =? 0)%nat then None else Some data)
  end.

(** [handleResponse]; [reissue] is the recursive call of [doApiRequest]
    on what the transport answers next. An exception thrown while the
    response is handled is caught by the caller and rejects. *)
Definition handleResponse (reissue : RequestOptions -> Z -> ApiRun)
    (response : Response) (options : RequestOptions) (redirectCount : Z) : ApiRun :=
  if bool_decide (statusCode response = Some 404%Z) then
    mkApiRun [] (Rejected (createHttpError response (Some (JStr (notFoundDescription options)))))
  else if bool_decide (statusCode response = Some 204%Z) then
    mkApiRun [] (Resolved None)
  else
    match safeGetHeader response "location" with
    | Some redirectUrl =>
        if (redirectCount >? 10)%Z then
          mkApiRun [] (Rejected (PlainError "Too many redirects (> 10)"))
        else
          match prepareRedirectUrlOptions redirectUrl options with
          | Throw e => mkApiRun [] (Rejected e)
          | Ok newOptions => reissue newOptions redirectCount
          end
    | None => mkApiRun [] (readBody response options)
    end.

(** [doApiRequest] against a transport that answers the requests it is
    given with the responses of [script], in order; when the script is
    exhausted no response arrives. Every request issued is recorded with
    the hop counter of its call. *)
Fixpoint doApiRequest (script : list Response) (options : RequestOptions)
    (redirectCount : Z) : ApiRun :=
  let run :=
    match script with
    | [] => mkApiRun [] NoResponse
    | response :: rest => handleResponse (doApiRequest rest) response options redirectCount
    end in
  mkApiRun (mkIssued options redirectCount :: apiIssued run) (apiOutcome run).

(** ** The digest transform *)

(** The hash object of the [crypto] module: [createHash(algorithm)],
    [hash.update(chunk)], [hash.digest(encoding)]. *)
Variable Hash : Type.
Variable createHash : string -> Hash.
Variable update : Hash -> Chunk -> Hash.
Variable digest : Hash -> Encoding -> string.

Record DigestTransform := mkDigestTransform {
  expected : string;
  algorithm : string;
  encoding : Encoding;
  digester : Hash;
  _actual : option string;
  isValidateOnEnd : bool
}.

(** [new DigestTransform(expected, algorithm, encoding)] *)
Definition newDigestTransform (expected algorithm : string) (encoding : Encoding)
    : DigestTransform :=
  mkDigestTransform expected algorithm encoding (createHash algorithm) None true.

(** [_transform(chunk, encoding, callback)]: the new state of the
    transform and the chunk handed to [callback(null, chunk)]. *)
Definition _transform (d : DigestTransform) (chunk : Chunk) : DigestTransform * Chunk :=
  (mkDigestTransform (expected d) (algorithm d) (encoding d)
     (update (digester d) chunk) (_actual d) (isValidateOnEnd d),
   chunk).

(** The error of [validate] for a digest that is not the expected one. *)
Definition checksumMismatch (d : DigestTransform) (actual : string) : JsError :=
  newError (algorithm d +:+ " checksum mismatch, expected " +:+ expected d
            +:+ ", got " +:+ actual)
    "ERR_CHECKSUM_MISMATCH".

Definition validate (d : DigestTransform) : Result unit :=
  match _actual d with
  | None => Throw (newError "Not finished yet" "ERR_STREAM_NOT_FINISHED")
  | Some actual =>
      if negb (String.eqb actual (expected d)) then Throw (checksumMismatch d actual)
      else Ok tt
  end.

(** [_flush(callback)]: the new state and the argument of [callback],
    [None] for [callback(null)]. *)
Definition _flush (d : DigestTransform) : DigestTransform * option JsError :=
  let d' :=
    mkDigestTransform (expected d) (algorithm d) (encoding d) (digester d)
      (Some (digest (digester d) (encoding d))) (isValidateOnEnd d) in
  if isValidateOnEnd d' then
    match validate d' with
    | Throw e => (d', Some e)
    | Ok _ => (d', None)
    end
  else (d', None).

(** A transform used as a stream: the chunks written to it, in order,
    then its end. [feed] yields the state after the chunks and the
    chunks that came out of its readable side. *)
Fixpoint feed (d : DigestTransform) (chunks : list Chunk) : DigestTransform * list Chunk :=
  match chunks with
  | [] => (d, [])
  | chunk :: rest =>
      let '(d1, out) := _transform d chunk in
      let '(d2, outs) := feed d1 rest in
      (d2, out :: outs)
  end.

(** ** The download pipeline *)

(** The stages that [configurePipes] pushes on [streams]. A progress
    stage holds the text of the [content-length] header, which the
    source hands to [parseInt], and the bytes it has seen. *)
Inductive Stream :=
| Progress (total : string) (transferred : N)
| Digest (d : DigestTransform)
| FileOut (destination : string).

Definition isDigest (s : Stream) : bool :=
  match s with
  | Digest _ => true
  | _ => false
  end.

Definition isProgress (s : Stream) : bool :=
  match s with
  | Progress _ _ => true
  | _ => false
  end.

(** The single completion signal of a download. *)
Inductive Completion :=
| Pending
| Fulfilled
| RejectedWith (error : JsError).

(** Modelled from the spec: the promise of [CancellationToken.createPromise]
    ([./CancellationToken] is not part of the file). The signal resolves or
    fails exactly once, never both, never more than once; a settlement
    that arrives later changes nothing. *)
Definition settle (c : Completion) (r : option JsError) : Completion :=
  match c with
  | Pending =>
      match r with
      | None => Fulfilled
      | Some e => RejectedWith e
      end
  | _ => c
  end.

(** The state of one download: the stage objects, whether the response
    still flows into them, what the destination has received, and what
    the collaborators have been told. *)
Record Pipe := mkPipe {
  streams : list Stream;
  piped : bool;
  written : list Chunk;
  closeCalls : nat;
  closeResult : option JsError;
  callbacks : list (option JsError);
  completion : Completion;
  cancelled : bool;
  aborts : nat
}.

(** A download before any response: nothing piped, the signal pending.
    [closeResult] is what closing the destination will report. *)
Definition newPipe (closeResult : option JsError) (cancelled : bool) : Pipe :=
  mkPipe [] false [] 0 closeResult [] Pending cancelled 0.

(** Modelled from the spec: [callback] belongs to the caller of
    [doDownload], which is not part of the file. A call [callback(r)] is
    recorded and settles the completion signal, with success for
    [callback(null)] and with failure [e] for [callback(e)]. *)
Definition callback (r : option JsError) (p : Pipe) : Pipe :=
  mkPipe (streams p) (piped p) (written p) (closeCalls p) (closeResult p)
    (callbacks p ++ [r]) (settle (completion p) r) (cancelled p) (aborts p).

Definition setStreams (ss : list Stream) (flows : bool) (p : Pipe) : Pipe :=
  mkPipe ss flows (written p) (closeCalls p) (closeResult p)
    (callbacks p) (completion p) (cancelled p) (aborts p).

Definition appendWritten (out : list Chunk) (p : Pipe) : Pipe :=
  mkPipe (streams p) (piped p) (written p ++ out) (closeCalls p) (closeResult p)
    (callbacks p) (completion p) (cancelled p) (aborts p).

(** The listener that [configurePipes] puts on every stage:
    [if (!cancellationToken.cancelled) callback(error)]. *)
Definition onStreamError (error : JsError) (p : Pipe) : Pipe :=
  if negb (cancelled p) then callback (Some error) p else p.

(** The listener on the [finish] of the destination:
    [fileOut.close(callback)]. *)
Definition onFinish (p : Pipe) : Pipe :=
  callback (closeResult p)
    (mkPipe (streams p) (piped p) (written p) (S (closeCalls p)) (closeResult p)
       (callbacks p) (completion p) (cancelled p) (aborts p)).

(** Modelled from the spec: cancelling the token marks it cancelled,
    runs the registered handler ([request.abort()]) and rejects the
    wrapped operation with a cancellation error. *)
Definition cancel (p : Pipe) : Pipe :=
  mkPipe (streams p) (piped p) (written p) (closeCalls p) (closeResult p)
    (callbacks p) (settle (completion p) (Some CancellationError)) true (S (aborts p)).

(** Modelled from the spec: the [_transform] of the progress stage
    ([./ProgressCallbackTransform] is not part of the file). It counts
    the bytes it has seen and hands the chunk on as it came. *)
Definition progressTransform (transferred : N) (chunk : Chunk) : N * Chunk :=
  ((transferred + N.of_nat (length chunk))%N, chunk).

(** The stream contract of [a.pipe(b)]: each chunk that [a] emits is
    written to [b]; when [a] ends, [b] is ended; an error of a stage ends
    nothing downstream. A transform hands on what its [_transform] gives
    to its callback, and at its end what its [_flush] decides.

    [write streams chunk]: a chunk enters the first stage; the stages
    after it, and what reaches the destination. *)
Fixpoint write (ss : list Stream) (chunk : Chunk) : list Stream * list Chunk :=
  match ss with
  | [] => ([], [])
  | Progress total transferred :: rest =>
      let '(transferred', chunk') := progressTransform transferred chunk in
      let '(rest', out) := write rest chunk' in
      (Progress total transferred' :: rest', out)
  | Digest d :: rest =>
      let '(d', chunk') := _transform d chunk in
      let '(rest', out) := write rest chunk' in
      (Digest d' :: rest', out)
  | FileOut destination :: rest => (FileOut destination :: rest, [chunk])
  end.

Inductive Ending :=
| Finished
| Failed (error : JsError)
| Unfinished.

(** [finish streams]: the first stage is ended. A digest transform that
    flushes with an error emits [error] and does not end the next
    stage; the destination that is ended emits [finish]. *)
Fixpoint finish (ss : list Stream) : list Stream * Ending :=
  match ss with
  | [] => ([], Unfinished)
  | Progress total transferred :: rest =>
      let '(rest', r) := finish rest in
      (Progress total transferred :: rest', r)
  | Digest d :: rest =>
      match _flush d with
      | (d', Some e) => (Digest d' :: rest, Failed e)
      | (d', None) =>
          let '(rest', r) := finish rest in
          (Digest d' :: rest', r)
      end
  | FileOut destination :: rest => (FileOut destination :: rest, Finished)
  end.

(** What can happen to a download once its pipes are configured. *)
Inductive Event :=
| Data (chunk : Chunk)
| End_
| StreamError (stage : nat) (error : JsError)
| RequestError (error : JsError)
| Cancel.

Definition step (p : Pipe) (ev : Event) : Pipe :=
  match ev with
  | Data chunk =>
      if piped p then
        let '(ss, out) := write (streams p) chunk in
        appendWritten out (setStreams ss true p)
      else p
  | End_ =>
      if piped p then
        match finish (streams p) with
        | (ss, Finished) => onFinish (setStreams ss false p)
        | (ss, Failed e) => onStreamError e (setStreams ss false p)
        | (ss, Unfinished) => setStreams ss false p
        end
      else p
  | StreamError stage error =>
      if (stage <? length (streams p))%nat
      then onStreamError error (setStreams (streams p) false p)
      else p
  | RequestError error => callback (Some error) p
  | Cancel => cancel p
  end.

Definition run (p : Pipe) (events : list Event) : Pipe := fold_left step events p.

(** A body that arrives whole: its chunks, then its end. *)
Definition bodyEvents (chunks : list Chunk) : list Event := map Data chunks ++ [End_].

(** The stages of [configurePipes], in the order they are pushed. *)
Definition buildStreams (options : DownloadOptions) (response : Response)
    (destination : string) : list Stream :=
  let streams0 :=
    if onProgress options then
      match safeGetHeader response "content-length" with
      | Some contentLength => [Progress contentLength 0]
      | None => []
      end
    else [] in
  let streams1 :=
    match sha512 options with
    | Some sha512 =>
        streams0 ++ [Digest (newDigestTransform sha512 "sha512" (sha512Encoding sha512))]
    | None =>
        match sha2 options with
        | Some sha2 => streams0 ++ [Digest (newDigestTransform sha2 "sha256" Hex)]
        | None => streams0
        end
    end in
  streams1 ++ [FileOut destination].

Definition configurePipes (options : DownloadOptions) (response : Response)
    (destination : string) (p : Pipe) : Pipe :=
  match checkSha2 (safeGetHeader response "X-Checksum-Sha2") (sha2 options) with
  | Some e => callback (Some e) p
  | None => setStreams (buildStreams options response destination) true p
  end.

(** ** Downloads *)

(** Where a download stands once the script is used up: the last
    response was handled (the callback was called, or the pipes were
    configured), its listener threw, or no response has arrived. *)
Inductive DownloadState :=
| Handled (p : Pipe)
| Uncaught (error : JsError) (p : Pipe)
| Waiting (p : Pipe).

Record DownloadRun := mkDownloadRun {
  downloadIssued : list Issued;
  downloadState : DownloadState
}.

Definition cannotDownload (requestOptions : RequestOptions) (response : Response) : JsError :=
  PlainError ("Cannot download " +:+ quote +:+ orElse (protocol requestOptions) "https:"
              +:+ "//" +:+ template (hostname requestOptions)
              +:+ template (path requestOptions) +:+ quote +:+ ", status "
              +:+ template (ofZ <$> statusCode response) +:+ ": "
              +:+ template (statusMessage response)).

(** The response listener of [doDownload]; [again] is the recursive call
    on what the transport answers next. Its arguments are evaluated left
    to right: the redirect options first, then [redirectCount++]. *)
Definition onDownloadResponse (again : RequestOptions -> Z -> DownloadRun)
    (response : Response) (requestOptions : RequestOptions) (destination : string)
    (redirectCount : Z) (options : DownloadOptions) (p : Pipe) : DownloadRun :=
  if statusAtLeast response 400 then
    mkDownloadRun [] (Handled (callback (Some (cannotDownload requestOptions response)) p))
  else
    match safeGetHeader response "location" with
    | Some redirectUrl =>
        if (redirectCount <? maxRedirects)%Z then
          match prepareRedirectUrlOptions redirectUrl requestOptions with
          | Throw e => mkDownloadRun [] (Uncaught e p)
          | Ok newOptions =>
              let '(argument, _) := postIncrement redirectCount in
              again newOptions argument
          end
        else
          mkDownloadRun []
            (Handled (callback
               (Some (PlainError ("Too many redirects (> " +:+ ofZ maxRedirects +:+ ")"))) p))
    | None => mkDownloadRun [] (Handled (configurePipes options response destination p))
    end.

(** [doDownload] against a scripted transport, as [doApiRequest]. *)
Fixpoint doDownload (script : list Response) (requestOptions : RequestOptions)
    (destination : string) (redirectCount : Z) (options : DownloadOptions) (p : Pipe)
    : DownloadRun :=
  let r :=
    match script with
    | [] => mkDownloadRun [] (Waiting p)
    | response :: rest =>
        onDownloadResponse
          (fun newOptions count => doDownload rest newOptions destination count options p)
          response requestOptions destination redirectCount options p
    end in
  mkDownloadRun (mkIssued requestOptions redirectCount :: downloadIssued r) (downloadState r).

(** ** Shapes of options and responses used below *)

(** Options whose headers hold no [authorization]. *)
Definition noAuthorization (options : RequestOptions) : Prop :=
  default ∅ (headers options) !! "authorization" = None.

(** A response that [doDownload] treats as a redirect. *)
Definition isDownloadRedirect (response : Response) : Prop :=
  statusAtLeast response 400 = false /\ is_Some (safeGetHeader response "location").

(** A response that [handleResponse] treats as a redirect. *)
Definition isApiRedirect (response : Response) : Prop :=
  statusCode response <> Some 404%Z /\ statusCode response <> Some 204%Z
  /\ is_Some (safeGetHeader response "location").

(** ** More of the executor *)

(** [Buffer.from(JSON.stringify(data)).length], the number of bytes of
    the encoded body of a request. *)
Variable encodedLength : Json -> Z.

Definition setMethod (options : RequestOptions) (m : string) : RequestOptions :=
  mkRequestOptions (protocol options) (hostname options) (port options) (path options)
    (Some m) (headers options) (gzip options) (others options).

(** [HttpExecutor.request(options, cancellationToken, data)] against a
    scripted transport. The options are configured first; a body that is
    not null forces the method and the two content headers; the request
    starts with hop counter 0, the default of [doApiRequest]. *)
Definition HttpExecutor_request (script : list Response) (options : RequestOptions)
    (data : option Json) : ApiRun :=
  let options1 := configureRequestOptions options None None in
  let options2 :=
    match data with
    | None | Some JNull => options1
    | Some d =>
        setHeaders (setMethod options1 "post")
          (<["Content-Length" := HNum (encodedLength d)]>
             (<["Content-Type" := HStr "application/json"]>
                (default ∅ (headers options1))))
    end in
  doApiRequest script options2 0.

(** What a redirect rebuild leaves alone: the method, the gzip flag, the
    properties this file does not know, and every header but the three
    it writes. *)
Definition keepsFrame (before after : RequestOptions) : Prop :=
  method after = method before
  /\ gzip after = gzip before
  /\ others after = others before
  /\ forall name,
       name <> "User-Agent" -> name <> "Cache-Control" -> name <> "authorization" ->
       default ∅ (headers after) !! name = default ∅ (headers before) !! name.

(** A serialized value in which no property with a sensitive name, at
    any depth, holds anything but the placeholder. *)
Fixpoint redacted (skippedNames : option (gset string)) (value : Json) : bool :=
  match value with
  | JArr items =>
      (fix all (l : list Json) : bool :=
         match l with
         | [] => true
         | v :: l' => redacted skippedNames v && all l'
         end) items
  | JObj members =>
      (fix all (l : list (string * Json)) : bool :=
         match l with
         | [] => true
         | (k, v) :: l' =>
             (if isSensitiveName skippedNames k
              then match v with
                   | JStr s => String.eqb s placeholder
                   | _ => false
                   end
              else redacted skippedNames v)
             && all l'
         end) members
  | _ => true
  end.

(** A hexadecimal digit, of either case. *)
Definition isHexDigit (c : ascii) : bool :=
  let n := nat_of_ascii c in
  ((48 <=? n) && (n <=? 57) || (97 <=? n) && (n <=? 102) || (65 <=? n) && (n <=? 70))%nat.

(** A decimal digit. *)
Definition isDigit (c : ascii) : bool :=
  ((48 <=? nat_of_ascii c) && (nat_of_ascii c <=? 57))%nat.

(** A header name without upper-case letters, as an HTTP parser that
    lowers the case of names delivers it. *)
Definition isLowerCaseName (name : string) : bool :=
  forallb (fun c => negb ((65 <=? nat_of_ascii c) && (nat_of_ascii c <=? 90))%nat)
    (chars name).


(** * Properties *)

(** ** Facts about the string primitives *)

Lemma append_cons (c : ascii) (a b : string) : String c a +:+ b = String c (a +:+ b).
Proof. reflexivity. Qed.

Lemma prefix_app (p s : string) : String.prefix p (p +:+ s) = true.
Proof.
  induction p as [|c p IH]; simpl.
  - now destruct s.
  - destruct (ascii_dec c c) as [_|n]; [exact IH | now destruct n].
Qed.

Lemma prefix_split (p s : string) :
  String.prefix p s = true -> exists r, s = p +:+ r.
Proof.
  revert s; induction p as [|c p IH]; intros s H.
  - now exists s.
  - destruct s as [|d s]; simpl in H; [discriminate|].
    destruct (ascii_dec c d) as [->|]; [|discriminate].
    destruct (IH s H) as [r ->]. now exists r.
Qed.

Lemma includes_here (s search : string) :
  String.prefix search s = true -> includes s search = true.
Proof. intros H. destruct s; cbn [includes]; rewrite H; reflexivity. Qed.

(** [includes] finds exactly the occurrences of [search] as a contiguous
    substring. *)
Lemma includes_spec (s search : string) :
  includes s search = true <-> exists a b, s = a +:+ search +:+ b.
Proof.
  split.
  - induction s as [|c s IH]; cbn [includes]; intros H.
    + rewrite orb_false_r in H. apply prefix_split in H as [r ->].
      now exists "", r.
    + apply orb_true_iff in H as [H|H].
      * apply prefix_split in H as [r Hr]. exists "", r. exact Hr.
      * destruct (IH H) as (a & b & ->). now exists (String c a), b.
  - intros (a & b & ->). induction a as [|c a IH].
    + change ("" +:+ search +:+ b) with (search +:+ b).
      apply includes_here, prefix_app.
    + change (String c a +:+ search +:+ b) with (String c (a +:+ search +:+ b)).
      cbn [includes]. rewrite IH. apply orb_true_r.
Qed.

(** Searching for a one-character string is a membership test. *)
Lemma includes_char (s : string) (c : ascii) :
  includes s (String c "") = existsb (Ascii.eqb c) (chars s).
Proof.
  induction s as [|d s IH]; [reflexivity|].
  cbn [includes chars existsb]. rewrite IH. f_equal.
  simpl. destruct (ascii_dec c d) as [->|n].
  - rewrite Ascii.eqb_refl. now destruct s.
  - apply Ascii.eqb_neq in n. now rewrite n.
Qed.

Lemma string_length_app (a b : string) :
  String.length (a +:+ b) = (String.length a + String.length b)%nat.
Proof. induction a as [|c a IH]; simpl; [reflexivity | now rewrite IH]. Qed.

Lemma substring_whole (s : string) : String.substring 0 (String.length s) s = s.
Proof. induction s as [|c s IH]; simpl; [reflexivity | now rewrite IH]. Qed.

Lemma substring_app_r (a b : string) :
  String.substring (String.length a) (String.length b) (a +:+ b) = b.
Proof. induction a as [|c a IH]; simpl; [apply substring_whole | exact IH]. Qed.

Lemma substring_split (n m : nat) (s : string) :
  (n + m = String.length s)%nat ->
  exists a, s = a +:+ String.substring n m s.
Proof.
  revert s; induction n as [|n IH]; intros s H.
  - exists "". simpl in *. subst m. now rewrite substring_whole.
  - destruct s as [|c s]; simpl in H; [discriminate|].
    destruct (IH s) as (a & Ha); [lia|].
    exists (String c a). rewrite append_cons. simpl. now rewrite <- Ha.
Qed.

(** [endsWith] holds exactly of the strings that have [search] as a
    suffix. *)
Lemma endsWith_spec (s search : string) :
  endsWith s search = true <-> exists a, s = a +:+ search.
Proof.
  unfold endsWith. split.
  - destruct (Nat.leb_spec (String.length search) (String.length s)) as [Hle|];
      [|discriminate].
    intros H. apply String.eqb_eq in H.
    destruct (substring_split (String.length s - String.length search)
                (String.length search) s) as (a & Ha); [lia|].
    exists a. now rewrite H in Ha.
  - intros [a ->]. rewrite string_length_app.
    replace (String.length search <=? String.length a + String.length search)%nat
      with true by (symmetry; apply Nat.leb_le; lia).
    replace (String.length a + String.length search - String.length search)%nat
      with (String.length a) by lia.
    rewrite substring_app_r. apply String.eqb_refl.
Qed.

Lemma startsWith_spec (s search : string) :
  startsWith s search = true <-> exists b, s = search +:+ b.
Proof.
  unfold startsWith. split; [apply prefix_split|].
  intros [b ->]. apply prefix_app.
Qed.

(** ** Encoding of the expected SHA-512 value *)

Lemma forbidden_chars_absent (l : list ascii) :
  negb (existsb (Ascii.eqb "+") l) && negb (existsb (Ascii.eqb "Z") l)
    && negb (existsb (Ascii.eqb "=") l)
  = forallb (fun c => negb (isForbiddenHexChar c)) l.
Proof.
  induction l as [|c l IH]; [reflexivity|].
  cbn [existsb forallb]. rewrite <- IH. unfold isForbiddenHexChar.
  rewrite (Ascii.eqb_sym "+" c), (Ascii.eqb_sym "Z" c), (Ascii.eqb_sym "=" c).
  destruct (Ascii.eqb c "+"), (Ascii.eqb c "Z"), (Ascii.eqb c "=");
    cbn [orb negb andb]; rewrite ?andb_false_r; reflexivity.
Qed.


(** ** Redaction *)

Lemma replaceProperty_unfold (skippedNames : option (gset string))
    (name : string) (value : Json) :
  replaceProperty skippedNames name value =
  if isSensitiveName skippedNames name then JStr placeholder
  else
    match value with
    | JArr items =>
        JArr (imap (fun i v => replaceProperty skippedNames (ofNat i) v) items)
    | JObj members =>
        JObj (map (fun kv => (fst kv, replaceProperty skippedNames (fst kv) (snd kv)))
                members)
    | _ => value
    end.
Proof.
  destruct value as [| | | |items|members]; cbn [replaceProperty];
    destruct (isSensitiveName skippedNames name); try reflexivity; f_equal.
  - change (fun i v => replaceProperty skippedNames (ofNat i) v)
      with (fun i v => replaceProperty skippedNames (ofNat (0 + i)) v).
    generalize 0%nat as base.
    induction items as [|v items IH]; intros base; [reflexivity|].
    cbn [imap]. rewrite Nat.add_0_r. f_equal.
    rewrite (IH (S base)). apply imap_ext. intros i x _. cbn.
    now rewrite Nat.add_succ_r.
  - induction members as [|[k v] members IH]; [reflexivity|].
    cbn [map fst snd]. now rewrite <- IH.
Qed.


(** ** Redirect options *)

Lemma configured_fields (url : string) (options : RequestOptions) :
  protocol (configureRequestOptionsFromUrl url options)
  = (if bool_decide (urlProtocol (parseUrl url) = None) && isElectron
     then Some "https:" else urlProtocol (parseUrl url))
  /\ hostname (configureRequestOptionsFromUrl url options) = urlHostname (parseUrl url)
  /\ path (configureRequestOptionsFromUrl url options) = urlPath (parseUrl url)
  /\ port (configureRequestOptionsFromUrl url options) = PortStr <$> urlPort (parseUrl url)
  /\ method (configureRequestOptionsFromUrl url options) = method options
  /\ gzip (configureRequestOptionsFromUrl url options) = gzip options
  /\ others (configureRequestOptionsFromUrl url options) = others options.
Proof.
  unfold configureRequestOptionsFromUrl, configureRequestOptions. cbn.
  repeat split; now destruct (urlPort (parseUrl url)).
Qed.

Lemma configured_headers (url : string) (options : RequestOptions) :
  exists hs,
    headers (configureRequestOptionsFromUrl url options) = Some hs
    /\ hs !! "Cache-Control" = Some (HStr "no-cache")
    /\ hs !! "User-Agent"
       = Some (default (HStr "electron-builder")
                 (default ∅ (headers options) !! "User-Agent"))
    /\ forall name, name <> "User-Agent" -> name <> "Cache-Control" ->
         hs !! name = default ∅ (headers options) !! name.
Proof.
  unfold configureRequestOptionsFromUrl, configureRequestOptions. cbn.
  set (h0 := default ∅ (headers options)).
  eexists. split; [reflexivity|]. split; [apply lookup_insert_eq|].
  split.
  - rewrite lookup_insert_ne by discriminate.
    case_bool_decide as HU.
    + rewrite lookup_insert_eq, HU. reflexivity.
    + destruct (h0 !! "User-Agent"); [reflexivity | contradiction].
  - intros name HU HC. rewrite lookup_insert_ne by congruence.
    case_bool_decide; [rewrite lookup_insert_ne by congruence|]; reflexivity.
Qed.

(** What [prepareRedirectUrlOptions] returns is the configured options,
    with or without the [authorization] header. *)
Lemma prepared_cases (redirectUrl : string) (options newOptions : RequestOptions) :
  prepareRedirectUrlOptions redirectUrl options = Ok newOptions ->
  newOptions = configureRequestOptionsFromUrl redirectUrl options
  \/ exists hs,
       headers (configureRequestOptionsFromUrl redirectUrl options) = Some hs
       /\ newOptions
          = setHeaders (configureRequestOptionsFromUrl redirectUrl options)
              (delete "authorization" hs).
Proof.
  unfold prepareRedirectUrlOptions.
  destruct (headers (configureRequestOptionsFromUrl redirectUrl options)) as [hs|] eqn:Hh;
    [|intros [= <-]; now left].
  destruct (hs !! "authorization") as [[a| |]|]; try discriminate;
    [|intros [= <-]; now left].
  destruct (startsWith a "token"); [|intros [= <-]; now left].
  destruct (hostnameOfURL redirectUrl) as [host|]; [|discriminate].
  destruct (endsWith host ".amazonaws.com"); intros [= <-]; [right|now left].
  now exists hs.
Qed.

(** C2, as the code has it. When the prior headers carry an
    [authorization] string under that lower-case name, and the
    redirect URL has a host: if the string starts with [token] and the
    host ends in [.amazonaws.com], the options of the reissued request
    have no [authorization] header; if the host does not end in that
    suffix, they carry the same [authorization] value. *)
Theorem redirect_authorization_rule (redirectUrl : string) (options : RequestOptions)
    (hs : gmap string HeaderValue) (authorization host : string) :
  headers options = Some hs ->
  hs !! "authorization" = Some (HStr authorization) ->
  hostnameOfURL redirectUrl = Some host ->
  (startsWith authorization "token" = true ->
   endsWith host ".amazonaws.com" = true ->
   exists newOptions hs',
     prepareRedirectUrlOptions redirectUrl options = Ok newOptions
     /\ headers newOptions = Some hs'
     /\ hs' !! "authorization" = None)
  /\ (endsWith host ".amazonaws.com" = false ->
      exists newOptions hs',
        prepareRedirectUrlOptions redirectUrl options = Ok newOptions
        /\ headers newOptions = Some hs'
        /\ hs' !! "authorization" = Some (HStr authorization)).
Proof.
  intros Hh Ha Hhost.
  destruct (configured_headers redirectUrl options) as (hc & Hc & _ & _ & Hframe).
  assert (Hauth : hc !! "authorization" = Some (HStr authorization)).
  { rewrite Hframe by discriminate. rewrite Hh. exact Ha. }
  unfold prepareRedirectUrlOptions. rewrite Hc, Hauth, Hhost.
  split.
  - intros -> ->. eexists _, _. split; [reflexivity|].
    split; [reflexivity | apply lookup_delete_eq].
  - intros ->. destruct (startsWith authorization "token");
      eexists _, _; (split; [reflexivity|]); split; eauto.
Qed.

(** C10, as the code has it. The options rebuilt for a redirect take
    hostname and path from the redirect URL, and the protocol too, except
    that under Electron a URL without protocol gets [https:]; the port is
    the one of the URL, and absent when the URL has none; method and the
    properties this file does not know are those of the prior options.
    Of the headers, [Cache-Control] is set to [no-cache] and [User-Agent]
    is kept or, when absent, set to [electron-builder]; [authorization]
    is kept or dropped; every other header is the one of the prior
    options. *)
Theorem redirect_rebuild_frame (redirectUrl : string) (options newOptions : RequestOptions) :
  prepareRedirectUrlOptions redirectUrl options = Ok newOptions ->
  protocol newOptions
  = (if bool_decide (urlProtocol (parseUrl redirectUrl) = None) && isElectron
     then Some "https:" else urlProtocol (parseUrl redirectUrl))
  /\ hostname newOptions = urlHostname (parseUrl redirectUrl)
  /\ path newOptions = urlPath (parseUrl redirectUrl)
  /\ port newOptions = PortStr <$> urlPort (parseUrl redirectUrl)
  /\ method newOptions = method options
  /\ gzip newOptions = gzip options
  /\ others newOptions = others options
  /\ exists hs',
       headers newOptions = Some hs'
       /\ hs' !! "Cache-Control" = Some (HStr "no-cache")
       /\ hs' !! "User-Agent"
          = Some (default (HStr "electron-builder")
                    (default ∅ (headers options) !! "User-Agent"))
       /\ (hs' !! "authorization" = default ∅ (headers options) !! "authorization"
           \/ hs' !! "authorization" = None)
       /\ forall name,
            name <> "User-Agent" -> name <> "Cache-Control" -> name <> "authorization" ->
            hs' !! name = default ∅ (headers options) !! name.
Proof.
  intros H.
  destruct (configured_fields redirectUrl options) as (F1 & F2 & F3 & F4 & F5 & F6 & F7).
  destruct (configured_headers redirectUrl options) as (hc & Hc & HCC & HUA & Hframe).
  destruct (prepared_cases _ _ _ H) as [->|(hs & Hhs & ->)].
  - repeat (split; [assumption|]).
    exists hc. repeat (split; [assumption|]). split.
    + left. now apply Hframe.
    + intros name ? ? _. now apply Hframe.
  - cbn. repeat (split; [assumption|]).
    rewrite Hc in Hhs. injection Hhs as <-.
    eexists. split; [reflexivity|].
    rewrite !lookup_delete_ne by discriminate.
    repeat (split; [assumption|]). split.
    + right. apply lookup_delete_eq.
    + intros name ? ? ?. rewrite lookup_delete_ne by congruence. now apply Hframe.
Qed.

(** ** The hop counter *)

Lemma doApiRequest_counter (script : list Response) (options : RequestOptions)
    (redirectCount : Z) :
  Forall (fun i => issuedRedirectCount i = redirectCount)
    (apiIssued (doApiRequest script options redirectCount)).
Proof.
  revert options. induction script as [|response rest IH]; intros options;
    cbn [doApiRequest apiIssued]; constructor; try reflexivity.
  - constructor.
  - unfold handleResponse.
    repeat (case_bool_decide; [constructor|]).
    destruct (safeGetHeader response "location"); [|constructor].
    destruct (redirectCount >? 10)%Z; [constructor|].
    destruct (prepareRedirectUrlOptions _ _); [apply IH | constructor].
Qed.

Lemma doDownload_counter (script : list Response) (requestOptions : RequestOptions)
    (destination : string) (redirectCount : Z) (options : DownloadOptions) (p : Pipe) :
  Forall (fun i => issuedRedirectCount i = redirectCount)
    (downloadIssued (doDownload script requestOptions destination redirectCount options p)).
Proof.
  revert requestOptions. induction script as [|response rest IH]; intros requestOptions;
    cbn [doDownload downloadIssued]; constructor; try reflexivity.
  - constructor.
  - unfold onDownloadResponse.
    destruct (statusAtLeast response 400); [constructor|].
    destruct (safeGetHeader response "location"); [|constructor].
    destruct (redirectCount <? maxRedirects)%Z; [|constructor].
    destruct (prepareRedirectUrlOptions _ _); [apply IH | constructor].
Qed.

(** Options without an [authorization] header stay so across a
    redirect, and the rebuild cannot throw on them. *)
Lemma prepare_noAuthorization (redirectUrl : string) (options : RequestOptions) :
  noAuthorization options ->
  exists newOptions,
    prepareRedirectUrlOptions redirectUrl options = Ok newOptions
    /\ noAuthorization newOptions
    /\ gzip newOptions = gzip options.
Proof.
  unfold noAuthorization. intros Hno.
  destruct (configured_headers redirectUrl options) as (hc & Hc & _ & _ & Hframe).
  destruct (configured_fields redirectUrl options) as (_ & _ & _ & _ & _ & Hgzip & _).
  exists (configureRequestOptionsFromUrl redirectUrl options).
  assert (Hauth : hc !! "authorization" = None)
    by (rewrite Hframe by discriminate; exact Hno).
  unfold prepareRedirectUrlOptions. rewrite Hc, Hauth.
  split; [reflexivity|]. split; [exact Hauth | exact Hgzip].
Qed.

(** Below the bound, [doDownload] follows a chain of redirects of any
    length: the counter it compares is the one it started with. *)
Lemma doDownload_follows (hops rest : list Response) (requestOptions : RequestOptions)
    (destination : string) (redirectCount : Z) (options : DownloadOptions) (p : Pipe) :
  Forall isDownloadRedirect hops ->
  noAuthorization requestOptions ->
  (redirectCount < maxRedirects)%Z ->
  exists finalOptions,
    noAuthorization finalOptions
    /\ downloadState (doDownload (hops ++ rest) requestOptions destination redirectCount options p)
       = downloadState (doDownload rest finalOptions destination redirectCount options p)
    /\ length (downloadIssued
                 (doDownload (hops ++ rest) requestOptions destination redirectCount options p))
       = (length hops
          + length (downloadIssued
                      (doDownload rest finalOptions destination redirectCount options p)))%nat.
Proof.
  intros Hhops Hno Hlt. revert requestOptions Hno.
  induction Hhops as [|response hops [Hstatus [url Hloc]] _ IH]; intros requestOptions Hno.
  - exists requestOptions. auto.
  - destruct (prepare_noAuthorization url requestOptions Hno) as (newOptions & Hprep & Hno' & _).
    destruct (IH newOptions Hno') as (finalOptions & Hfinal & Hstate & Hlen).
    exists finalOptions. split; [exact Hfinal|].
    cbn [app doDownload downloadState downloadIssued length].
    unfold onDownloadResponse. rewrite Hstatus, Hloc, Hprep.
    apply Z.ltb_lt in Hlt. rewrite Hlt. cbn [postIncrement].
    split; [exact Hstate | now rewrite Hlen].
Qed.

(** At or below the bound, so does [doApiRequest]. *)
Lemma doApiRequest_follows (hops rest : list Response) (options : RequestOptions)
    (redirectCount : Z) :
  Forall isApiRedirect hops ->
  noAuthorization options ->
  (redirectCount <= 10)%Z ->
  exists finalOptions,
    noAuthorization finalOptions
    /\ gzip finalOptions = gzip options
    /\ apiOutcome (doApiRequest (hops ++ rest) options redirectCount)
       = apiOutcome (doApiRequest rest finalOptions redirectCount)
    /\ length (apiIssued (doApiRequest (hops ++ rest) options redirectCount))
       = (length hops + length (apiIssued (doApiRequest rest finalOptions redirectCount)))%nat.
Proof.
  intros Hhops Hno Hle. revert options Hno.
  induction Hhops as [|response hops (H404 & H204 & [url Hloc]) _ IH]; intros options Hno.
  - exists options. auto.
  - destruct (prepare_noAuthorization url options Hno) as (newOptions & Hprep & Hno' & Hgz).
    destruct (IH newOptions Hno') as (finalOptions & Hfinal & Hgz' & Hout & Hlen).
    exists finalOptions. split; [exact Hfinal|]. split; [congruence|].
    cbn [app doApiRequest apiOutcome apiIssued length].
    unfold handleResponse.
    rewrite !bool_decide_eq_false_2 by assumption.
    rewrite Hloc, Hprep.
    replace (redirectCount >? 10)%Z with false by (symmetry; rewrite Z.gtb_ltb; apply Z.ltb_ge; lia).
    split; [exact Hout | now rewrite Hlen].
Qed.

(** ** Stages of the pipeline *)

Lemma filter_isDigest_progress (response : Response) (options : DownloadOptions) :
  List.filter isDigest
    (if onProgress options then
       match safeGetHeader response "content-length" with
       | Some contentLength => [Progress contentLength 0]
       | None => []
       end
     else []) = [].
Proof.
  destruct (onProgress options); [|reflexivity].
  now destruct (safeGetHeader response "content-length").
Qed.

(** C6. Of the stages that [configurePipes] builds, at most one verifies
    a digest. When an expected SHA-512 value is supplied, with or without
    a SHA-256 value, that one stage is the SHA-512 transform; when only a
    SHA-256 value is supplied, it is the SHA-256 transform; and these are
    the stages piped whenever the header check lets the download go on. *)
Theorem at_most_one_digest_stage (options : DownloadOptions) (response : Response)
    (destination : string) :
  (length (List.filter isDigest (buildStreams options response destination)) <= 1)%nat
  /\ (forall e512, sha512 options = Some e512 ->
        List.filter isDigest (buildStreams options response destination)
        = [Digest (newDigestTransform e512 "sha512" (sha512Encoding e512))])
  /\ (forall e256, sha512 options = None -> sha2 options = Some e256 ->
        List.filter isDigest (buildStreams options response destination)
        = [Digest (newDigestTransform e256 "sha256" Hex)])
  /\ (forall p, checkSha2 (safeGetHeader response "X-Checksum-Sha2") (sha2 options) = None ->
        streams (configurePipes options response destination p)
        = buildStreams options response destination).
Proof.
  unfold buildStreams.
  pose proof (filter_isDigest_progress response options) as Hpre.
  repeat split.
  - destruct (sha512 options); [|destruct (sha2 options)];
      rewrite !List.filter_app, ?Hpre; cbn; lia.
  - intros e512 ->. now rewrite !List.filter_app, Hpre.
  - intros e256 -> ->. now rewrite !List.filter_app, Hpre.
  - intros p Hcheck. unfold configurePipes. now rewrite Hcheck.
Qed.

(** Once the response no longer flows into the stages, nothing reaches
    the destination and it is not closed. *)
Lemma unpiped_is_inert (p : Pipe) (events : list Event) :
  piped p = false ->
  piped (run p events) = false
  /\ written (run p events) = written p
  /\ closeCalls (run p events) = closeCalls p
  /\ streams (run p events) = streams p.
Proof.
  revert p. induction events as [|ev events IH]; intros p Hp; [auto|].
  change (run p (ev :: events)) with (run (step p ev) events).
  assert (Hstep : piped (step p ev) = false /\ written (step p ev) = written p
                  /\ closeCalls (step p ev) = closeCalls p
                  /\ streams (step p ev) = streams p).
  { destruct ev; cbn [step]; rewrite ?Hp; try (cbn; auto; fail).
    destruct (_ <? _)%nat; [|auto]. unfold onStreamError. cbn.
    destruct (cancelled p); cbn; auto. }
  destruct Hstep as (H1 & H2 & H3 & H4).
  destruct (IH _ H1) as (I1 & I2 & I3 & I4). repeat split; congruence.
Qed.

(** C7, as the code has it. With an expected SHA-256 value: when the
    response carries an [X-Checksum-Sha2] header that differs from it,
    the callback gets the mismatch error, no stage is built and nothing
    is ever written; when the response carries no such header, the check
    passes and the pipes are configured. *)
Theorem sha2_header_checked_when_present (options : DownloadOptions) (response : Response)
    (destination expected : string) :
  sha2 options = Some expected ->
  (forall header closeResult0 cancelled0 events,
     safeGetHeader response "X-Checksum-Sha2" = Some header ->
     header <> expected ->
     callbacks (configurePipes options response destination (newPipe closeResult0 cancelled0))
     = [Some (PlainError ("checksum mismatch: expected " +:+ expected +:+ " but got "
                          +:+ header +:+ " (X-Checksum-Sha2 header)"))]
     /\ streams (configurePipes options response destination (newPipe closeResult0 cancelled0))
        = []
     /\ written (run (configurePipes options response destination
                        (newPipe closeResult0 cancelled0)) events) = [])
  /\ (safeGetHeader response "X-Checksum-Sha2" = None ->
      checkSha2 None (Some expected) = None
      /\ forall p, configurePipes options response destination p
                   = setStreams (buildStreams options response destination) true p).
Proof.
  intros Hsha2. split.
  - intros header closeResult0 cancelled0 events Hheader Hne.
    unfold configurePipes, checkSha2. rewrite Hheader, Hsha2.
    rewrite !bool_decide_eq_true_2 by eauto.
    rewrite bool_decide_eq_false_2 by congruence.
    cbn [andb negb]. repeat split.
    now destruct (unpiped_is_inert
                    (callback (Some (PlainError
                       ("checksum mismatch: expected " +:+ template (Some expected)
                        +:+ " but got " +:+ template (Some header)
                        +:+ " (X-Checksum-Sha2 header)")))
                       (newPipe closeResult0 cancelled0)) events eq_refl) as (_ & -> & _).
  - intros Hnone. split; [reflexivity|]. intros p.
    unfold configurePipes. now rewrite Hnone, Hsha2.
Qed.

(** ** The digest transform *)

Lemma feed_fields (d : DigestTransform) (chunks : list Chunk) :
  fst (feed d chunks)
  = mkDigestTransform (expected d) (algorithm d) (encoding d)
      (fold_left update chunks (digester d)) (_actual d) (isValidateOnEnd d)
  /\ snd (feed d chunks) = chunks.
Proof.
  revert d. induction chunks as [|chunk rest IH]; intros d.
  - now destruct d.
  - cbn [feed _transform fold_left].
    destruct (feed _ rest) as [d2 outs] eqn:E.
    specialize (IH (mkDigestTransform (expected d) (algorithm d) (encoding d)
                      (update (digester d) chunk) (_actual d) (isValidateOnEnd d))).
    rewrite E in IH. cbn in IH. destruct IH as [-> ->]. split; reflexivity.
Qed.

Lemma _flush_actual (d : DigestTransform) :
  _actual (fst (_flush d)) = Some (digest (digester d) (encoding d)).
Proof.
  unfold _flush. cbn [isValidateOnEnd].
  destruct (isValidateOnEnd d); [destruct (validate _)|]; reflexivity.
Qed.

Section Chunking.

(** The contract of an incremental hash: updating with nothing changes
    nothing, and updating twice is updating with the two buffers joined. *)
Hypothesis update_nil : forall h, update h [] = h.
Hypothesis update_app : forall h a b, update (update h a) b = update h (a ++ b).

Lemma fold_update_concat (chunks : list Chunk) (h : Hash) :
  fold_left update chunks h = update h (concat chunks).
Proof.
  revert h. induction chunks as [|chunk rest IH]; intros h; cbn [fold_left concat].
  - now rewrite update_nil.
  - now rewrite IH, update_app.
Qed.

(** C8. A digest transform hands on every chunk as it came, and what it
    finalizes is the digest of the chunks joined: two ways of cutting
    the same bytes flush alike, and a transform that expects the digest
    of the joined bytes flushes without error. *)
Theorem digest_chunking_invariance (expected0 algorithm0 : string) (encoding0 : Encoding)
    (chunks : list Chunk) :
  snd (feed (newDigestTransform expected0 algorithm0 encoding0) chunks) = chunks
  /\ _actual (fst (_flush (fst (feed (newDigestTransform expected0 algorithm0 encoding0)
                                  chunks))))
     = Some (digest (update (createHash algorithm0) (concat chunks)) encoding0)
  /\ (forall chunks',
        concat chunks' = concat chunks ->
        _flush (fst (feed (newDigestTransform expected0 algorithm0 encoding0) chunks'))
        = _flush (fst (feed (newDigestTransform expected0 algorithm0 encoding0) chunks)))
  /\ (expected0 = digest (update (createHash algorithm0) (concat chunks)) encoding0 ->
      snd (_flush (fst (feed (newDigestTransform expected0 algorithm0 encoding0) chunks)))
      = None).
Proof.
  assert (Hfeed : forall cs,
    fst (feed (newDigestTransform expected0 algorithm0 encoding0) cs)
    = mkDigestTransform expected0 algorithm0 encoding0
        (update (createHash algorithm0) (concat cs)) None true).
  { intros cs. destruct (feed_fields (newDigestTransform expected0 algorithm0 encoding0) cs)
      as [-> _]. cbn. now rewrite fold_update_concat. }
  split; [apply feed_fields|]. split; [|split].
  - now rewrite _flush_actual, Hfeed.
  - intros chunks' Heq. now rewrite !Hfeed, Heq.
  - intros Hexp. rewrite Hfeed. unfold _flush, validate. cbn.
    now rewrite <- Hexp, String.eqb_refl.
Qed.

End Chunking.

(** ** Running the pipeline *)

Lemma run_app (p : Pipe) (events more : list Event) :
  run p (events ++ more) = run (run p events) more.
Proof. apply fold_left_app. Qed.

Lemma write_digest_stage (pre : list Stream) (d : DigestTransform) (destination : string)
    (chunk : Chunk) :
  forallb isProgress pre = true ->
  exists pre',
    forallb isProgress pre' = true
    /\ write (pre ++ [Digest d; FileOut destination]) chunk
       = (pre' ++ [Digest (fst (_transform d chunk)); FileOut destination], [chunk]).
Proof.
  induction pre as [|s pre IH]; intros Hpre.
  - exists []. split; reflexivity.
  - destruct s as [total n| |]; try discriminate.
    destruct (IH Hpre) as (pre' & Hpre' & Hw).
    exists (Progress total (n + N.of_nat (length chunk)) :: pre').
    split; [exact Hpre'|]. cbn [app write progressTransform]. now rewrite Hw.
Qed.

Lemma finish_digest_stage (pre : list Stream) (d : DigestTransform) (destination : string) :
  forallb isProgress pre = true ->
  finish (pre ++ [Digest d; FileOut destination])
  = (pre ++ [Digest (fst (_flush d)); FileOut destination],
     match snd (_flush d) with
     | Some e => Failed e
     | None => Finished
     end).
Proof.
  induction pre as [|s pre IH]; intros Hpre.
  - cbn [app finish]. now destruct (_flush d) as [d' [e|]].
  - destruct s as [total n| |]; try discriminate.
    cbn [app finish]. now rewrite (IH Hpre).
Qed.

(** The chunks of a body flow through a digest stage into the
    destination, in order. *)
Lemma run_data (chunks : list Chunk) (p : Pipe) (pre : list Stream) (d : DigestTransform)
    (destination : string) :
  streams p = pre ++ [Digest d; FileOut destination] ->
  forallb isProgress pre = true ->
  piped p = true ->
  exists pre',
    forallb isProgress pre' = true
    /\ run p (map Data chunks)
       = appendWritten chunks
           (setStreams (pre' ++ [Digest (fst (feed d chunks)); FileOut destination]) true p).
Proof.
  revert p pre d. induction chunks as [|chunk rest IH]; intros p pre d Hs Hpre Hp.
  - exists pre. split; [exact Hpre|]. cbn. unfold appendWritten, setStreams.
    rewrite app_nil_r, <- Hs, <- Hp. now destruct p.
  - destruct (write_digest_stage pre d destination chunk Hpre) as (pre1 & Hpre1 & Hw).
    cbn [map]. change (run p (Data chunk :: map Data rest))
      with (run (step p (Data chunk)) (map Data rest)).
    cbn [step]. rewrite Hp, Hs, Hw.
    destruct (IH (appendWritten [chunk]
                    (setStreams (pre1 ++ [Digest (fst (_transform d chunk));
                                          FileOut destination]) true p))
                 pre1 (fst (_transform d chunk)) eq_refl Hpre1 eq_refl)
      as (pre' & Hpre' & ->).
    exists pre'. split; [exact Hpre'|].
    unfold appendWritten, setStreams. cbn.
    destruct (feed _ rest) as [d2 outs]. cbn. now rewrite <- app_assoc.
Qed.

Lemma buildStreams_digest (options : DownloadOptions) (response : Response)
    (destination : string) (d : DigestTransform) :
  In (Digest d) (buildStreams options response destination) ->
  exists pre,
    forallb isProgress pre = true
    /\ buildStreams options response destination = pre ++ [Digest d; FileOut destination]
    /\ digester d = createHash (algorithm d)
    /\ isValidateOnEnd d = true.
Proof.
  unfold buildStreams.
  set (pre := if onProgress options then _ else _).
  assert (Hpre : forallb isProgress pre = true).
  { subst pre. destruct (onProgress options); [|reflexivity].
    now destruct (safeGetHeader response "content-length"). }
  assert (Hnot : ~ In (Digest d) pre).
  { subst pre. destruct (onProgress options); [|intros []].
    destruct (safeGetHeader response "content-length"); [intros [[=]|[]] | intros []]. }
  intros Hin. exists pre. split; [exact Hpre|].
  destruct (sha512 options) as [e512|]; [|destruct (sha2 options) as [e256|]].
  - rewrite <- app_assoc in *. apply in_app_or in Hin as [Hin|[[= <-]|[[=]|[]]]];
      [contradiction|]. now repeat split.
  - rewrite <- app_assoc in *. apply in_app_or in Hin as [Hin|[[= <-]|[[=]|[]]]];
      [contradiction|]. now repeat split.
  - apply in_app_or in Hin as [Hin|[[=]|[]]]. contradiction.
Qed.

(** C3, as the code has it. When the pipes are configured with a digest
    stage and the body, streamed to its end, does not hash to the
    expected value: every chunk has been written to the destination, the
    callback is called once, with the checksum mismatch error, and the
    completion signal fails with it; the destination is not ended, and
    its close is not invoked then or after any later event. *)
Theorem checksum_mismatch_reported_sink_not_closed (options : DownloadOptions)
    (response : Response) (destination : string) (closeResult0 : option JsError)
    (d : DigestTransform) (chunks : list Chunk) :
  checkSha2 (safeGetHeader response "X-Checksum-Sha2") (sha2 options) = None ->
  In (Digest d) (buildStreams options response destination) ->
  digest (fold_left update chunks (createHash (algorithm d))) (encoding d) <> expected d ->
  callbacks (run (configurePipes options response destination (newPipe closeResult0 false))
               (bodyEvents chunks))
  = [Some (checksumMismatch d
             (digest (fold_left update chunks (createHash (algorithm d))) (encoding d)))]
  /\ completion (run (configurePipes options response destination
                        (newPipe closeResult0 false)) (bodyEvents chunks))
     = RejectedWith
         (checksumMismatch d
            (digest (fold_left update chunks (createHash (algorithm d))) (encoding d)))
  /\ written (run (configurePipes options response destination (newPipe closeResult0 false))
                (bodyEvents chunks)) = chunks
  /\ forall later,
       closeCalls (run (configurePipes options response destination
                          (newPipe closeResult0 false)) (bodyEvents chunks ++ later)) = 0%nat.
Proof.
  intros Hcheck Hin Hne.
  destruct (buildStreams_digest _ _ _ _ Hin) as (pre & Hpre & Hbuild & Hdig & Hval).
  unfold configurePipes. rewrite Hcheck, Hbuild.
  set (p0 := setStreams _ true _).
  destruct (run_data chunks p0 pre d destination eq_refl Hpre eq_refl)
    as (pre' & Hpre' & Hrun).
  assert (Hend : exists p1,
    run p0 (bodyEvents chunks) = p1
    /\ piped p1 = false /\ closeCalls p1 = 0%nat /\ written p1 = chunks
    /\ callbacks p1 = [Some (checksumMismatch d
         (digest (fold_left update chunks (createHash (algorithm d))) (encoding d)))]
    /\ completion p1 = RejectedWith (checksumMismatch d
         (digest (fold_left update chunks (createHash (algorithm d))) (encoding d)))).
  { eexists. split; [reflexivity|].
    unfold bodyEvents. rewrite run_app, Hrun.
    change (run ?q [End_]) with (step q End_). cbn [step appendWritten setStreams piped streams].
    rewrite (finish_digest_stage pre' _ destination Hpre').
    destruct (feed_fields d chunks) as [-> _].
    unfold _flush, validate. cbn [isValidateOnEnd _actual expected encoding digester algorithm].
    rewrite Hval, Hdig.
    apply String.eqb_neq in Hne. rewrite Hne. cbn.
    repeat split; reflexivity. }
  destruct Hend as (p1 & Hp1 & Hpiped & Hclose & Hwritten & Hcb & Hcompl).
  rewrite Hp1. repeat split; try assumption.
  intros later. rewrite run_app, Hp1.
  destruct (unpiped_is_inert p1 later Hpiped) as (_ & _ & -> & _). exact Hclose.
Qed.

(** ** Cancellation *)

Lemma step_closeResult (p : Pipe) (ev : Event) : closeResult (step p ev) = closeResult p.
Proof.
  destruct ev; cbn [step]; try reflexivity.
  - destruct (piped p); [|reflexivity]. now destruct (write (streams p) chunk).
  - destruct (piped p); [|reflexivity].
    destruct (finish (streams p)) as [ss [|e|]]; try reflexivity.
    unfold onStreamError. now destruct (negb _).
  - destruct (_ <? _)%nat; [|reflexivity]. unfold onStreamError. now destruct (negb _).
Qed.

(** After cancellation one step leaves the signal cancelled, and calls
    the callback with nothing but the result of a close or the error of
    the request itself. *)
Lemma cancelled_step (p : Pipe) (ev : Event) :
  cancelled p = true ->
  completion p = RejectedWith CancellationError ->
  cancelled (step p ev) = true
  /\ completion (step p ev) = RejectedWith CancellationError
  /\ exists surfaced,
       callbacks (step p ev) = callbacks p ++ surfaced
       /\ Forall (fun r => r = closeResult p \/ exists e, r = Some e /\ ev = RequestError e) surfaced.
Proof.
  intros Hc Hs. destruct ev as [chunk| |stage error|error|]; cbn [step].
  - destruct (piped p); [destruct (write (streams p) chunk)|]; cbn;
      repeat split; try assumption; exists []; now rewrite app_nil_r.
  - destruct (piped p); [destruct (finish (streams p)) as [ss [|e|]]|];
      unfold onFinish, onStreamError; cbn; rewrite ?Hc, ?Hs; cbn;
      repeat split; try assumption;
      try (exists []; now rewrite app_nil_r).
    exists [closeResult p]. split; [reflexivity|]. constructor; auto.
  - destruct (_ <? _)%nat; unfold onStreamError; cbn; rewrite ?Hc; cbn;
      repeat split; try assumption; exists []; now rewrite app_nil_r.
  - cbn. rewrite Hs. repeat split; try assumption.
    exists [Some error]. split; [reflexivity|]. constructor; eauto.
  - unfold cancel. cbn. rewrite Hs. repeat split.
    exists []. now rewrite app_nil_r.
Qed.

Lemma cancelled_run (events : list Event) (p : Pipe) :
  cancelled p = true ->
  completion p = RejectedWith CancellationError ->
  completion (run p events) = RejectedWith CancellationError
  /\ exists surfaced,
       callbacks (run p events) = callbacks p ++ surfaced
       /\ Forall (fun r => r = closeResult p
                           \/ exists e, r = Some e /\ In (RequestError e) events) surfaced.
Proof.
  revert p. induction events as [|ev events IH]; intros p Hc Hs.
  - split; [exact Hs|]. exists []. split; [now rewrite app_nil_r | constructor].
  - change (run p (ev :: events)) with (run (step p ev) events).
    destruct (cancelled_step p ev Hc Hs) as (Hc1 & Hs1 & s1 & Hcb1 & Hall1).
    destruct (IH _ Hc1 Hs1) as (Hs2 & s2 & Hcb2 & Hall2).
    split; [exact Hs2|]. exists (s1 ++ s2).
    split; [now rewrite Hcb2, Hcb1, app_assoc|].
    apply Forall_app. split.
    + eapply Forall_impl; [exact Hall1|].
      intros r [Hr|(e & -> & ->)]; [now left|]. right. exists e. split; [reflexivity|now left].
    + eapply Forall_impl; [exact Hall2|]. rewrite step_closeResult.
      intros r [Hr|(e & -> & Hin)]; [now left|]. right. exists e. split; [reflexivity|now right].
Qed.

(** C4. Cancelling a download whose completion signal is pending settles
    the signal as cancelled, and it stays so whatever arrives afterwards:
    chunks, the end of the body, errors of the stages (a checksum
    mismatch among them), errors of the request. After the cancellation
    the callback is never called with the error of a stage; it is called
    only with the result of closing the destination or with an error of
    the request, and neither changes the settled signal. *)
Theorem cancellation_wins (p : Pipe) (events : list Event) :
  completion p = Pending ->
  completion (run p (Cancel :: events)) = RejectedWith CancellationError
  /\ exists surfaced,
       callbacks (run p (Cancel :: events)) = callbacks p ++ surfaced
       /\ Forall (fun r => r = closeResult p
                           \/ exists e, r = Some e /\ In (RequestError e) events) surfaced.
Proof.
  intros Hpending.
  change (run p (Cancel :: events)) with (run (cancel p) events).
  apply (cancelled_run events (cancel p)); [reflexivity|].
  cbn. now rewrite Hpending.
Qed.

(** * Further properties *)

(** ** Configuring options *)

Lemma configureRequestOptions_headers (options : RequestOptions)
    (token method' : option string) :
  exists hs,
    headers (configureRequestOptions options token method') = Some hs
    /\ hs !! "Cache-Control"
       = (if bool_decide (method' = None) || bool_decide (method' = Some "GET")
          then Some (HStr "no-cache")
          else Some (default (HStr "no-cache")
                       (default ∅ (headers options) !! "Cache-Control")))
    /\ hs !! "User-Agent"
       = Some (default (HStr "electron-builder")
                 (default ∅ (headers options) !! "User-Agent"))
    /\ hs !! "authorization"
       = match token with
         | Some t => Some (HStr (if startsWith t "Basic" then t else "token " +:+ t))
         | None => default ∅ (headers options) !! "authorization"
         end
    /\ forall name,
         name <> "User-Agent" -> name <> "Cache-Control" -> name <> "authorization" ->
         hs !! name = default ∅ (headers options) !! name.
Proof.
  unfold configureRequestOptions. cbn [headers].
  set (h0 := default ∅ (headers options)).
  set (h1 := match token with Some t => _ | None => h0 end).
  set (h2 := if bool_decide (h1 !! "User-Agent" = None) then _ else h1).
  assert (H1U : h1 !! "User-Agent" = h0 !! "User-Agent").
  { subst h1. destruct token; [now rewrite lookup_insert_ne|reflexivity]. }
  assert (H1C : h1 !! "Cache-Control" = h0 !! "Cache-Control").
  { subst h1. destruct token; [now rewrite lookup_insert_ne|reflexivity]. }
  assert (H2U : h2 !! "User-Agent"
                = Some (default (HStr "electron-builder") (h0 !! "User-Agent"))).
  { subst h2. case_bool_decide as HU.
    - rewrite lookup_insert_eq. rewrite <- H1U, HU. reflexivity.
    - rewrite H1U in *. destruct (h0 !! "User-Agent"); [reflexivity|contradiction]. }
  assert (H2C : h2 !! "Cache-Control" = h0 !! "Cache-Control").
  { subst h2. case_bool_decide; [now rewrite lookup_insert_ne|]; exact H1C. }
  assert (H2A : h2 !! "authorization" = h1 !! "authorization").
  { subst h2. case_bool_decide; [now rewrite lookup_insert_ne|reflexivity]. }
  assert (H2O : forall name, name <> "User-Agent" -> name <> "authorization" ->
                             h2 !! name = h0 !! name).
  { intros name HU HA. subst h2 h1.
    case_bool_decide; [rewrite lookup_insert_ne by congruence|];
      (destruct token; [now rewrite lookup_insert_ne by congruence|reflexivity]). }
  eexists. split; [reflexivity|].
  destruct (bool_decide (method' = None) || bool_decide (method' = Some "GET")) eqn:Hm;
    cbn [orb].
  - rewrite lookup_insert_eq, !lookup_insert_ne by discriminate.
    repeat split; try assumption.
    + rewrite H2A. subst h1. destruct token; [apply lookup_insert_eq|reflexivity].
    + intros name HU HC HA. rewrite lookup_insert_ne by congruence. now apply H2O.
  - destruct (bool_decide (h2 !! "Cache-Control" = None)) eqn:HC.
    + apply bool_decide_eq_true in HC.
      rewrite lookup_insert_eq, !lookup_insert_ne by discriminate.
      rewrite H2C in HC. rewrite HC. repeat split; try assumption.
      * rewrite H2A. subst h1. destruct token; [apply lookup_insert_eq|reflexivity].
      * intros name HU HC' HA. rewrite lookup_insert_ne by congruence. now apply H2O.
    + apply bool_decide_eq_false in HC.
      rewrite H2C in *. repeat split; try assumption.
      * destruct (h0 !! "Cache-Control"); [reflexivity|contradiction].
      * rewrite H2A. subst h1. destruct token; [apply lookup_insert_eq|reflexivity].
      * intros name HU HC' HA. now apply H2O.
Qed.

(** X1. [configureRequestOptions] removes no header and writes at most
    three: [Cache-Control] becomes [no-cache] when no method or [GET] is
    given and is otherwise kept, or set when absent; [User-Agent] is
    kept, or set to [electron-builder] when absent; [authorization] is
    written only when a token is given, a [Basic] token as it is and any
    other behind the prefix [token ]; every other header stays. *)
Theorem configureRequestOptions_writes_three_headers (options : RequestOptions)
    (token method' : option string) :
  exists hs,
    headers (configureRequestOptions options token method') = Some hs
    /\ hs !! "Cache-Control"
       = (if bool_decide (method' = None) || bool_decide (method' = Some "GET")
          then Some (HStr "no-cache")
          else Some (default (HStr "no-cache")
                       (default ∅ (headers options) !! "Cache-Control")))
    /\ hs !! "User-Agent"
       = Some (default (HStr "electron-builder")
                 (default ∅ (headers options) !! "User-Agent"))
    /\ hs !! "authorization"
       = match token with
         | Some t => Some (HStr (if startsWith t "Basic" then t else "token " +:+ t))
         | None => default ∅ (headers options) !! "authorization"
         end
    /\ forall name,
         name <> "User-Agent" -> name <> "Cache-Control" -> name <> "authorization" ->
         hs !! name = default ∅ (headers options) !! name.
Proof.
  destruct (configureRequestOptions_headers options token method')
    as (hs & Hh & HC & HU & HA & HO).
  exists hs. auto.
Qed.

(** X2. Configuring options that are already configured, with the same
    token and method, changes nothing. *)
Theorem configureRequestOptions_idempotent (options : RequestOptions)
    (token method' : option string) :
  configureRequestOptions (configureRequestOptions options token method') token method'
  = configureRequestOptions options token method'.
Proof.
  destruct (configureRequestOptions_headers options token method')
    as (hs & Hh & HC & HU & HA & HO).
  destruct (configureRequestOptions_headers
              (configureRequestOptions options token method') token method')
    as (hs' & Hh' & HC' & HU' & HA' & HO').
  rewrite Hh in *. change (default ∅ (Some hs)) with hs in *.
  assert (Hhs : hs' = hs).
  { apply map_eq. intros name.
    destruct (decide (name = "Cache-Control")) as [->|NC].
    { rewrite HC', HC. now destruct (_ || _). }
    destruct (decide (name = "User-Agent")) as [->|NU].
    { now rewrite HU', HU. }
    destruct (decide (name = "authorization")) as [->|NA].
    { rewrite HA', HA. now destruct token. }
    now apply HO'. }
  subst hs'.
  destruct (configureRequestOptions options token method')
    as [pr ho po pa me he gz ot] eqn:E.
  cbn in Hh, Hh'. subst he.
  unfold configureRequestOptions in Hh' |- *. cbn in Hh' |- *.
  injection Hh' as Hh'. rewrite Hh'.
  assert (Hme : match method' with Some m => Some m | None => me end = me).
  { unfold configureRequestOptions in E. injection E as _ _ _ _ <- _ _ _.
    now destruct method'. }
  assert (Hpr : (if bool_decide (pr = None) && isElectron then Some "https:" else pr) = pr).
  { unfold configureRequestOptions in E. injection E as <- _ _ _ _ _ _ _.
    destruct (protocol options), isElectron; reflexivity. }
  now rewrite Hme, Hpr.
Qed.

(** ** One redirect *)

Lemma prepared_frame (redirectUrl : string) (options newOptions : RequestOptions) :
  prepareRedirectUrlOptions redirectUrl options = Ok newOptions ->
  keepsFrame options newOptions.
Proof.
  intros H.
  destruct (configured_fields redirectUrl options) as (_ & _ & _ & _ & F5 & F6 & F7).
  destruct (configured_headers redirectUrl options) as (hc & Hc & _ & _ & Hframe).
  destruct (prepared_cases _ _ _ H) as [->|(hs & Hhs & ->)]; unfold keepsFrame.
  - repeat (split; [assumption|]). intros name ? ? _. rewrite Hc. now apply Hframe.
  - cbn. repeat (split; [assumption|]).
    rewrite Hc in Hhs. injection Hhs as <-.
    intros name ? ? ?. rewrite lookup_delete_ne by congruence. now apply Hframe.
Qed.

Lemma keepsFrame_refl (options : RequestOptions) : keepsFrame options options.
Proof. unfold keepsFrame. auto. Qed.

Lemma keepsFrame_trans (a b c : RequestOptions) :
  keepsFrame a b -> keepsFrame b c -> keepsFrame a c.
Proof.
  unfold keepsFrame. intros (M1 & G1 & O1 & H1) (M2 & G2 & O2 & H2).
  repeat split; try congruence.
  intros name ? ? ?. rewrite H2, H1 by assumption. reflexivity.
Qed.

(** X3. A rebuild for a redirect whose URL has a host that ends in
    [.amazonaws.com] never returns options with an [authorization]
    string that starts with [token], whatever the prior options were. *)
Theorem no_token_for_storage_host (redirectUrl host : string)
    (options newOptions : RequestOptions) (hs' : gmap string HeaderValue)
    (authorization : string) :
  prepareRedirectUrlOptions redirectUrl options = Ok newOptions ->
  hostnameOfURL redirectUrl = Some host ->
  endsWith host ".amazonaws.com" = true ->
  headers newOptions = Some hs' ->
  hs' !! "authorization" = Some (HStr authorization) ->
  startsWith authorization "token" = false.
Proof.
  unfold prepareRedirectUrlOptions. intros H Hhost Hends Hh Ha.
  destruct (headers (configureRequestOptionsFromUrl redirectUrl options)) as [hc|] eqn:Hc.
  - destruct (hc !! "authorization") as [[a| |]|] eqn:Hauth; try discriminate.
    + destruct (startsWith a "token") eqn:Htoken.
      * rewrite Hhost, Hends in H. injection H as <-. cbn in Hh. injection Hh as <-.
        rewrite lookup_delete_eq in Ha. discriminate.
      * injection H as <-. rewrite Hc in Hh. injection Hh as <-. congruence.
    + injection H as <-. rewrite Hc in Hh. injection Hh as <-. congruence.
  - injection H as <-. congruence.
Qed.

Lemma token_prefix (t : string) : startsWith ("token " +:+ t) "token" = true.
Proof. reflexivity. Qed.

Lemma basic_is_not_token (t : string) :
  startsWith t "Basic" = true -> startsWith t "token" = false.
Proof. intros H. apply startsWith_spec in H as [b ->]. reflexivity. Qed.

(** X4. A token given to [configureRequestOptions] and a later redirect:
    a token that does not start with [Basic] is sent as [token ...] and
    is dropped by a redirect to a host that ends in [.amazonaws.com]; a
    token that starts with [Basic] is sent as it is and is kept by every
    redirect, also one to such a host. *)
Theorem configured_token_across_redirect (options : RequestOptions)
    (t : string) (method' : option string) (redirectUrl host : string) :
  hostnameOfURL redirectUrl = Some host ->
  endsWith host ".amazonaws.com" = true ->
  (startsWith t "Basic" = false ->
   exists newOptions hs',
     prepareRedirectUrlOptions redirectUrl
       (configureRequestOptions options (Some t) method') = Ok newOptions
     /\ headers newOptions = Some hs'
     /\ hs' !! "authorization" = None)
  /\ (startsWith t "Basic" = true ->
      exists newOptions hs',
        prepareRedirectUrlOptions redirectUrl
          (configureRequestOptions options (Some t) method') = Ok newOptions
        /\ headers newOptions = Some hs'
        /\ hs' !! "authorization" = Some (HStr t)).
Proof.
  intros Hhost Hends.
  destruct (configureRequestOptions_headers options (Some t) method')
    as (hs & Hh & _ & _ & HA & _).
  destruct (configured_headers redirectUrl (configureRequestOptions options (Some t) method'))
    as (hc & Hc & _ & _ & Hframe).
  assert (Hauth : hc !! "authorization"
                  = Some (HStr (if startsWith t "Basic" then t else "token " +:+ t))).
  { rewrite Hframe by discriminate. rewrite Hh. exact HA. }
  unfold prepareRedirectUrlOptions. rewrite Hc, Hauth.
  split; intros HB; rewrite HB.
  - rewrite token_prefix, Hhost, Hends. eexists _, _. split; [reflexivity|].
    split; [reflexivity | apply lookup_delete_eq].
  - rewrite (basic_is_not_token t HB). eexists _, _. split; [reflexivity|].
    split; [exact Hc | now rewrite Hauth, HB].
Qed.


(** ** Chains of redirects *)

(** The requests that follow the first are those of the reissued call,
    and there are some only when the response was a redirect that could
    be rebuilt. *)
Lemma handleResponse_issued (reissue : RequestOptions -> Z -> ApiRun)
    (response : Response) (options : RequestOptions) (redirectCount : Z) :
  apiIssued (handleResponse reissue response options redirectCount) = []
  \/ exists url newOptions,
       safeGetHeader response "location" = Some url
       /\ prepareRedirectUrlOptions url options = Ok newOptions
       /\ handleResponse reissue response options redirectCount
          = reissue newOptions redirectCount.
Proof.
  unfold handleResponse.
  repeat (case_bool_decide; [now left|]).
  destruct (safeGetHeader response "location") as [url|]; [|now left].
  destruct (redirectCount >? 10)%Z; [now left|].
  destruct (prepareRedirectUrlOptions url options) as [newOptions|e] eqn:E; [|now left].
  right. now exists url, newOptions.
Qed.

Lemma onDownloadResponse_issued (again : RequestOptions -> Z -> DownloadRun)
    (response : Response) (requestOptions : RequestOptions) (destination : string)
    (redirectCount : Z) (options : DownloadOptions) (p : Pipe) :
  downloadIssued (onDownloadResponse again response requestOptions destination
                    redirectCount options p) = []
  \/ exists url newOptions,
       safeGetHeader response "location" = Some url
       /\ prepareRedirectUrlOptions url requestOptions = Ok newOptions
       /\ onDownloadResponse again response requestOptions destination
            redirectCount options p
          = again newOptions redirectCount.
Proof.
  unfold onDownloadResponse.
  destruct (statusAtLeast response 400); [now left|].
  destruct (safeGetHeader response "location") as [url|]; [|now left].
  destruct (redirectCount <? maxRedirects)%Z; [|now left].
  destruct (prepareRedirectUrlOptions url requestOptions) as [newOptions|e] eqn:E;
    [|now left].
  right. now exists url, newOptions.
Qed.

Lemma api_issued_linked (script : list Response) (options : RequestOptions)
    (redirectCount : Z) (i : nat) (a b : Issued) :
  apiIssued (doApiRequest script options redirectCount) !! i = Some a ->
  apiIssued (doApiRequest script options redirectCount) !! S i = Some b ->
  exists response url,
    script !! i = Some response
    /\ safeGetHeader response "location" = Some url
    /\ prepareRedirectUrlOptions url (issuedOptions a) = Ok (issuedOptions b).
Proof.
  revert options i. induction script as [|response rest IH]; intros options i;
    cbn [doApiRequest apiIssued]; [now destruct i|].
  destruct (handleResponse_issued (doApiRequest rest) response options redirectCount)
    as [->|(url & newOptions & Hloc & Hprep & ->)]; [now destruct i|].
  destruct i as [|i]; cbn [lookup list_lookup].
  - intros [= <-]. destruct rest; cbn; intros [= <-]; now exists response, url.
  - intros Ha Hb. destruct (IH newOptions i Ha Hb) as (r & u & ? & ? & ?).
    now exists r, u.
Qed.

Lemma download_issued_linked (script : list Response) (requestOptions : RequestOptions)
    (destination : string) (redirectCount : Z) (options : DownloadOptions) (p : Pipe)
    (i : nat) (a b : Issued) :
  downloadIssued (doDownload script requestOptions destination redirectCount options p)
    !! i = Some a ->
  downloadIssued (doDownload script requestOptions destination redirectCount options p)
    !! S i = Some b ->
  exists response url,
    script !! i = Some response
    /\ safeGetHeader response "location" = Some url
    /\ prepareRedirectUrlOptions url (issuedOptions a) = Ok (issuedOptions b).
Proof.
  revert requestOptions i. induction script as [|response rest IH]; intros requestOptions i;
    cbn [doDownload downloadIssued]; [now destruct i|].
  destruct (onDownloadResponse_issued
              (fun newOptions count => doDownload rest newOptions destination count options p)
              response requestOptions destination redirectCount options p)
    as [->|(url & newOptions & Hloc & Hprep & ->)]; [now destruct i|].
  destruct i as [|i]; cbn [lookup list_lookup].
  - intros [= <-]. destruct rest; cbn; intros [= <-]; now exists response, url.
  - intros Ha Hb. destruct (IH newOptions i Ha Hb) as (r & u & ? & ? & ?).
    now exists r, u.
Qed.

(** X5. The requests of one operation form a chain: the request issued
    after the [i]-th one is the rebuild of the [i]-th for the [location]
    of the [i]-th response, for an API request and for a download. *)
Theorem issued_requests_form_a_chain (script : list Response) (options : RequestOptions)
    (destination : string) (redirectCount : Z) (downloadOptions : DownloadOptions)
    (p : Pipe) (i : nat) (a b : Issued) :
  (apiIssued (doApiRequest script options redirectCount) !! i = Some a ->
   apiIssued (doApiRequest script options redirectCount) !! S i = Some b ->
   exists response url,
     script !! i = Some response
     /\ safeGetHeader response "location" = Some url
     /\ prepareRedirectUrlOptions url (issuedOptions a) = Ok (issuedOptions b))
  /\ (downloadIssued (doDownload script options destination redirectCount
                        downloadOptions p) !! i = Some a ->
      downloadIssued (doDownload script options destination redirectCount
                        downloadOptions p) !! S i = Some b ->
      exists response url,
        script !! i = Some response
        /\ safeGetHeader response "location" = Some url
        /\ prepareRedirectUrlOptions url (issuedOptions a) = Ok (issuedOptions b)).
Proof.
  split; [apply api_issued_linked | apply download_issued_linked].
Qed.

Lemma api_issued_frame (script : list Response) (options : RequestOptions)
    (redirectCount : Z) :
  Forall (fun i => keepsFrame options (issuedOptions i))
    (apiIssued (doApiRequest script options redirectCount)).
Proof.
  revert options. induction script as [|response rest IH]; intros options;
    cbn [doApiRequest apiIssued]; constructor; try apply keepsFrame_refl.
  - constructor.
  - destruct (handleResponse_issued (doApiRequest rest) response options redirectCount)
      as [->|(url & newOptions & _ & Hprep & ->)]; [constructor|].
    eapply Forall_impl; [apply (IH newOptions)|].
    intros i Hi. cbn in Hi. eapply keepsFrame_trans; [|exact Hi].
    now apply (prepared_frame url).
Qed.

Lemma download_issued_frame (script : list Response) (requestOptions : RequestOptions)
    (destination : string) (redirectCount : Z) (options : DownloadOptions) (p : Pipe) :
  Forall (fun i => keepsFrame requestOptions (issuedOptions i))
    (downloadIssued (doDownload script requestOptions destination redirectCount options p)).
Proof.
  revert requestOptions. induction script as [|response rest IH]; intros requestOptions;
    cbn [doDownload downloadIssued]; constructor; try apply keepsFrame_refl.
  - constructor.
  - destruct (onDownloadResponse_issued
                (fun newOptions count =>
                   doDownload rest newOptions destination count options p)
                response requestOptions destination redirectCount options p)
      as [->|(url & newOptions & _ & Hprep & ->)]; [constructor|].
    eapply Forall_impl; [apply (IH newOptions)|].
    intros i Hi. cbn in Hi. eapply keepsFrame_trans; [|exact Hi].
    now apply (prepared_frame url).
Qed.

(** X6. Every request of an operation, however many redirects it
    follows, has the method, the gzip flag and the unknown properties of
    the first, and every header of the first except [User-Agent],
    [Cache-Control] and [authorization]. *)
Theorem every_issued_request_keeps_the_frame (script : list Response)
    (options : RequestOptions) (destination : string) (redirectCount : Z)
    (downloadOptions : DownloadOptions) (p : Pipe) :
  Forall (fun i => keepsFrame options (issuedOptions i))
    (apiIssued (doApiRequest script options redirectCount))
  /\ Forall (fun i => keepsFrame options (issuedOptions i))
       (downloadIssued (doDownload script options destination redirectCount
                          downloadOptions p)).
Proof. split; [apply api_issued_frame | apply download_issued_frame]. Qed.

(** X7. Along a whole chain no request that results from a redirect to a
    URL whose host ends in [.amazonaws.com] carries an [authorization]
    string that starts with [token]. *)
Theorem no_token_along_the_chain (script : list Response) (options : RequestOptions)
    (destination : string) (redirectCount : Z) (downloadOptions : DownloadOptions)
    (p : Pipe) (i : nat) (response : Response) (url host : string) (b : Issued)
    (hs : gmap string HeaderValue) (authorization : string) :
  script !! i = Some response ->
  safeGetHeader response "location" = Some url ->
  hostnameOfURL url = Some host ->
  endsWith host ".amazonaws.com" = true ->
  headers (issuedOptions b) = Some hs ->
  hs !! "authorization" = Some (HStr authorization) ->
  (apiIssued (doApiRequest script options redirectCount) !! S i = Some b
   \/ downloadIssued (doDownload script options destination redirectCount
                        downloadOptions p) !! S i = Some b) ->
  startsWith authorization "token" = false.
Proof.
  intros Hresp Hloc Hhost Hends Hh Ha Hb.
  assert (Hprev : exists a, prepareRedirectUrlOptions url a = Ok (issuedOptions b)).
  { destruct Hb as [Hb|Hb].
    - destruct (apiIssued (doApiRequest script options redirectCount) !! i) as [a|] eqn:Hi.
      + destruct (api_issued_linked _ _ _ _ _ _ Hi Hb) as (r & u & Hr & Hu & Hp).
        rewrite Hresp in Hr. injection Hr as <-. rewrite Hloc in Hu. injection Hu as <-.
        now exists (issuedOptions a).
      + apply lookup_ge_None in Hi. apply lookup_lt_Some in Hb. lia.
    - destruct (downloadIssued (doDownload script options destination redirectCount
                                  downloadOptions p) !! i) as [a|] eqn:Hi.
      + destruct (download_issued_linked _ _ _ _ _ _ _ _ _ Hi Hb) as (r & u & Hr & Hu & Hp).
        rewrite Hresp in Hr. injection Hr as <-. rewrite Hloc in Hu. injection Hu as <-.
        now exists (issuedOptions a).
      + apply lookup_ge_None in Hi. apply lookup_lt_Some in Hb. lia. }
  destruct Hprev as (a & Hprep).
  unfold prepareRedirectUrlOptions in Hprep.
  destruct (headers (configureRequestOptionsFromUrl url a)) as [hc|] eqn:Hc.
  - destruct (hc !! "authorization") as [[x| |]|] eqn:Hauth; try discriminate.
    + destruct (startsWith x "token") eqn:Htoken.
      * rewrite Hhost, Hends in Hprep. injection Hprep as Hprep. rewrite <- Hprep in Hh.
        cbn in Hh. injection Hh as <-. rewrite lookup_delete_eq in Ha. discriminate.
      * injection Hprep as Hprep. rewrite <- Hprep, Hc in Hh. injection Hh as <-. congruence.
    + injection Hprep as Hprep. rewrite <- Hprep, Hc in Hh. injection Hh as <-. congruence.
  - injection Hprep as Hprep. rewrite <- Hprep in Hh. congruence.
Qed.


(** ** Classifying a response *)

Lemma default_some {A : Type} (d x : A) : default d (Some x) = x.
Proof. reflexivity. Qed.

Lemma string_app_assoc (a b c : string) : (a +:+ b) +:+ c = a +:+ (b +:+ c).
Proof. induction a as [|x a IH]; [reflexivity|]. rewrite !append_cons. now rewrite IH. Qed.

(** X8. A 404 response ends an API request at once, whatever else the
    response carries (a [location] header, a body) and whatever the hop
    counter is: no further request is issued, nothing is read or parsed,
    and the rejection is an [HttpError] with status 404 and a text
    description; when the request has a method, a host and a path, the
    description is the fixed text around them. A 204 response ends the
    request as well, resolving with null. *)
Theorem not_found_and_no_content_end_the_request (response : Response)
    (rest : list Response) (options : RequestOptions) (redirectCount : Z) :
  (statusCode response = Some 404%Z ->
   exists message description,
     doApiRequest (response :: rest) options redirectCount
     = mkApiRun [mkIssued options redirectCount]
         (Rejected (HttpError 404 message (Some (JStr description))))
     /\ forall m h pa,
          method options = Some m -> hostname options = Some h -> path options = Some pa ->
          description
          = "method: " +:+ m +:+ " url: " +:+ orElse (protocol options) "https:" +:+ "//"
            +:+ h +:+ pa +:+ newline +:+ newline
            +:+ "Please double check that your authentication token is correct. Due to security reasons actual status maybe not reported, but 404."
            +:+ newline)
  /\ (statusCode response = Some 204%Z ->
      doApiRequest (response :: rest) options redirectCount
      = mkApiRun [mkIssued options redirectCount] (Resolved None)).
Proof.
  split.
  - intros H404. eexists _, (notFoundDescription options). split.
    + cbn [doApiRequest]. unfold handleResponse.
      rewrite bool_decide_eq_true_2 by assumption. cbn [apiIssued apiOutcome].
      unfold createHttpError. rewrite H404. reflexivity.
    + intros m h pa Hm Hh Hp. unfold notFoundDescription. now rewrite Hm, Hh, Hp.
  - intros H204. cbn [doApiRequest]. unfold handleResponse.
    rewrite bool_decide_eq_false_2 by (rewrite H204; discriminate).
    rewrite bool_decide_eq_true_2 by assumption. reflexivity.
Qed.

(** X9. An API request resolves only on the response that answers its
    last request, reached through redirects that were all followed: that
    response is not a 404 and has no status of 400 or more; on a 204 the
    request resolves with null; otherwise the response has no [location]
    and the request resolves with the text of its body, or with null
    when the body is empty. It never resolves with the empty string. *)
Theorem request_resolves_only_on_success (script : list Response)
    (options : RequestOptions) (redirectCount : Z) (data : option string) :
  apiOutcome (doApiRequest script options redirectCount) = Resolved data ->
  data <> Some ""
  /\ exists hops response rest,
       script = hops ++ response :: rest
       /\ Forall isApiRedirect hops
       /\ length (apiIssued (doApiRequest script options redirectCount)) = S (length hops)
       /\ statusCode response <> Some 404%Z
       /\ statusAtLeast response 400 = false
       /\ (statusCode response = Some 204%Z -> data = None)
       /\ (statusCode response <> Some 204%Z ->
           safeGetHeader response "location" = None
           /\ (gzip options = false ->
               data = if (String.length (fold_left String.append (body response) "") =? 0)%nat
                      then None
                      else Some (fold_left String.append (body response) ""))).
Proof.
  revert options. induction script as [|response rest IH]; intros options;
    cbn [doApiRequest apiOutcome apiIssued]; [discriminate|].
  unfold handleResponse.
  case_bool_decide as H404; [discriminate|].
  case_bool_decide as H204.
  { cbn. intros [= <-]. split; [discriminate|]. exists [], response, rest.
    split; [reflexivity|]. split; [constructor|]. split; [reflexivity|].
    split; [assumption|]. split; [unfold statusAtLeast; now rewrite H204|].
    split; [reflexivity | contradiction]. }
  destruct (safeGetHeader response "location") as [url|] eqn:Hloc.
  { destruct (redirectCount >? 10)%Z; [discriminate|].
    destruct (prepareRedirectUrlOptions url options) as [newOptions|e] eqn:Hprep;
      [|discriminate].
    intros H.
    destruct (IH newOptions H)
      as (Hd & hops & r & rest' & -> & Hhops & Hlen & Hr404 & Hr400 & Hr204 & Hbody).
    split; [exact Hd|]. exists (response :: hops), r, rest'.
    split; [reflexivity|]. split; [constructor; [|exact Hhops]|].
    { repeat split; try assumption. now exists url. }
    split; [cbn [length]; now rewrite Hlen|].
    repeat (split; [assumption|]). intros Hnot. destruct (Hbody Hnot) as [Hnone Htext].
    split; [exact Hnone|]. intros Hgzip. apply Htext.
    destruct (prepared_frame url options newOptions Hprep) as (_ & -> & _). exact Hgzip. }
  cbn [apiOutcome apiIssued]. unfold readBody.
  destruct (gzip options) eqn:Hgzip.
  - destruct (gunzip (body response)) as [chunks|e]; [|discriminate].
    destruct (statusAtLeast response 400) eqn:Hstatus.
    { destruct (match safeGetHeader response "content-type" with
                | Some t => includes t "json" | None => false end);
        [destruct (parseJsonText _)|]; discriminate. }
    intros [= <-]. split.
    + destruct (fold_left String.append chunks "") as [|c s]; cbn; discriminate.
    + exists [], response, rest. split; [reflexivity|]. split; [constructor|].
      split; [reflexivity|]. repeat (split; [assumption|]).
      split; [contradiction|]. intros _. split; [exact Hloc | discriminate].
  - destruct (statusAtLeast response 400) eqn:Hstatus.
    { destruct (match safeGetHeader response "content-type" with
                | Some t => includes t "json" | None => false end);
        [destruct (parseJsonText _)|]; discriminate. }
    intros [= <-]. split.
    + destruct (fold_left String.append (body response) "") as [|c s]; cbn; discriminate.
    + exists [], response, rest. split; [reflexivity|]. split; [constructor|].
      split; [reflexivity|]. repeat (split; [assumption|]).
      split; [contradiction|]. intros _. split; [exact Hloc | reflexivity].
Qed.


(** X11. A response with a status of 400 or more ends a download with
    an error handed to the callback, also when it carries a [location]
    header: no redirect is followed, no stage is built, and nothing is
    ever written or closed. When the request has a host and a path and
    the response a status message, the error is the [Cannot download]
    text around them. *)
Theorem failed_status_ends_the_download (response : Response) (rest : list Response)
    (requestOptions : RequestOptions) (destination : string) (redirectCount : Z)
    (options : DownloadOptions) (closeResult0 : option JsError) (cancelled0 : bool) :
  statusAtLeast response 400 = true ->
  exists error,
    doDownload (response :: rest) requestOptions destination redirectCount options
      (newPipe closeResult0 cancelled0)
    = mkDownloadRun [mkIssued requestOptions redirectCount]
        (Handled (callback (Some error) (newPipe closeResult0 cancelled0)))
    /\ (forall h pa c m,
          hostname requestOptions = Some h -> path requestOptions = Some pa ->
          statusCode response = Some c -> statusMessage response = Some m ->
          error = PlainError ("Cannot download " +:+ quote
                              +:+ orElse (protocol requestOptions) "https:" +:+ "//"
                              +:+ h +:+ pa +:+ quote +:+ ", status " +:+ ofZ c
                              +:+ ": " +:+ m))
    /\ forall events,
         written (run (callback (Some error) (newPipe closeResult0 cancelled0)) events) = []
         /\ closeCalls (run (callback (Some error) (newPipe closeResult0 cancelled0))
                          events) = 0%nat.
Proof.
  intros Hstatus. exists (cannotDownload requestOptions response). split; [|split].
  - cbn [doDownload]. unfold onDownloadResponse. now rewrite Hstatus.
  - intros h pa c m Hh Hp Hc Hm. unfold cannotDownload. now rewrite Hh, Hp, Hc, Hm.
  - intros events.
    destruct (unpiped_is_inert
                (callback (Some (cannotDownload requestOptions response))
                   (newPipe closeResult0 cancelled0)) events eq_refl)
      as (_ & -> & -> & _). split; reflexivity.
Qed.

(** X12. [request] with a body: every request it issues, the first and
    those that follow redirects, is a [post] with the content type
    [application/json] and the length of the encoded body, under hop
    counter 0. *)
Theorem request_with_body_is_a_post (script : list Response) (options : RequestOptions)
    (d : Json) :
  d <> JNull ->
  Forall (fun i =>
            method (issuedOptions i) = Some "post"
            /\ default ∅ (headers (issuedOptions i)) !! "Content-Type"
               = Some (HStr "application/json")
            /\ default ∅ (headers (issuedOptions i)) !! "Content-Length"
               = Some (HNum (encodedLength d))
            /\ issuedRedirectCount i = 0%Z)
    (apiIssued (HttpExecutor_request script options (Some d))).
Proof.
  intros Hd.
  assert (H : HttpExecutor_request script options (Some d)
              = doApiRequest script
                  (setHeaders (setMethod (configureRequestOptions options None None) "post")
                     (<["Content-Length" := HNum (encodedLength d)]>
                        (<["Content-Type" := HStr "application/json"]>
                           (default ∅ (headers (configureRequestOptions options None None))))))
                  0).
  { unfold HttpExecutor_request. destruct d; try reflexivity. contradiction. }
  rewrite H. apply Forall_and. split; [|apply Forall_and; split];
    [| |apply Forall_and; split; [|apply doApiRequest_counter]];
    (eapply Forall_impl; [apply api_issued_frame|]);
    intros i (Hm & _ & _ & Hframe); cbn beta.
  - rewrite Hm. reflexivity.
  - rewrite Hframe by discriminate. cbn [setHeaders headers]. rewrite default_some.
    rewrite lookup_insert_ne by discriminate. apply lookup_insert_eq.
  - rewrite Hframe by discriminate. cbn [setHeaders headers]. rewrite default_some.
    apply lookup_insert_eq.
Qed.


(** ** The digest transform, further *)

(** X13. [_flush] records the digest, and reports an error exactly when
    validation on end is on and the digest is not the expected string;
    the error is then the checksum mismatch with code
    [ERR_CHECKSUM_MISMATCH]. With validation on end switched off the
    flush never fails and the digest can be read from [_actual]. *)
Theorem flush_fails_exactly_on_mismatch (d : DigestTransform) :
  _actual (fst (_flush d)) = Some (digest (digester d) (encoding d))
  /\ (snd (_flush d) = None <->
      isValidateOnEnd d = false \/ digest (digester d) (encoding d) = expected d)
  /\ (forall e, snd (_flush d) = Some e ->
        e = checksumMismatch d (digest (digester d) (encoding d))
        /\ errorCode e = Some "ERR_CHECKSUM_MISMATCH").
Proof.
  split; [apply _flush_actual|].
  unfold _flush, validate. cbn [isValidateOnEnd _actual expected].
  destruct (isValidateOnEnd d).
  - destruct (String.eqb_spec (digest (digester d) (encoding d)) (expected d)) as [Heq|Hne];
      cbn [negb snd].
    + split; [split; auto|]. discriminate.
    + split.
      * split; [discriminate|]. intros [H|H]; [discriminate|contradiction].
      * intros e [= <-]. split; reflexivity.
  - cbn [snd]. split; [split; auto|]. discriminate.
Qed.

(** X14. [validate] on a transform that has not been flushed throws the
    [ERR_STREAM_NOT_FINISHED] error, whatever has been written to it;
    after the flush it succeeds exactly when the digest is the expected
    string. *)
Theorem validate_needs_the_flush (expected0 algorithm0 : string) (encoding0 : Encoding)
    (chunks : list Chunk) :
  validate (fst (feed (newDigestTransform expected0 algorithm0 encoding0) chunks))
  = Throw (newError "Not finished yet" "ERR_STREAM_NOT_FINISHED")
  /\ (validate (fst (_flush (fst (feed (newDigestTransform expected0 algorithm0 encoding0)
                                    chunks)))) = Ok tt
      <-> digest (fold_left update chunks (createHash algorithm0)) encoding0 = expected0).
Proof.
  destruct (feed_fields (newDigestTransform expected0 algorithm0 encoding0) chunks)
    as [-> _].
  cbn [newDigestTransform expected algorithm encoding digester _actual isValidateOnEnd].
  split; [reflexivity|].
  unfold _flush, validate. cbn [isValidateOnEnd _actual expected encoding digester].
  destruct (String.eqb_spec (digest (fold_left update chunks (createHash algorithm0)) encoding0)
              expected0) as [Heq|Hne]; cbn.
  - rewrite Heq, String.eqb_refl. cbn. split; auto.
  - apply String.eqb_neq in Hne as Hne'. rewrite Hne'. cbn.
    split; [discriminate | contradiction].
Qed.

(** ** The header check, further *)

(** X15. [checkSha2] fails exactly when both the header and the expected
    value are there and differ, and then with the mismatch error; the
    error [checksum is required] is never produced. *)
Theorem checkSha2_fails_exactly_on_difference (sha2Header sha2' : option string) :
  (checkSha2 sha2Header sha2' = None <->
   sha2Header = None \/ sha2' = None \/ sha2Header = sha2')
  /\ forall e,
       checkSha2 sha2Header sha2' = Some e ->
       exists header wanted,
         sha2Header = Some header /\ sha2' = Some wanted /\ header <> wanted
         /\ e = PlainError ("checksum mismatch: expected " +:+ wanted +:+ " but got "
                            +:+ header +:+ " (X-Checksum-Sha2 header)").
Proof.
  unfold checkSha2.
  destruct sha2Header as [header|], sha2' as [wanted|];
    try (split; [split; auto | discriminate]).
  rewrite !bool_decide_eq_true_2 by eauto. cbn [andb negb].
  case_bool_decide as Heq; cbn [negb].
  - split; [split; auto | discriminate].
  - split.
    + split; [discriminate|]. intros [H|[H|H]]; try discriminate. contradiction.
    + intros e [= <-]. exists header, wanted. repeat split. congruence.
Qed.

Lemma lowerCase_is_not_checksum_header (name : string) :
  isLowerCaseName name = true -> String.eqb name "X-Checksum-Sha2" = false.
Proof.
  intros H. destruct (String.eqb_spec name "X-Checksum-Sha2") as [->|]; [|reflexivity].
  vm_compute in H. discriminate.
Qed.

(** X16. The checksum header is looked up under the name
    [X-Checksum-Sha2] as written, with upper-case letters: on a response
    whose header names are all lower-case the header is not found, the
    check passes whatever SHA-256 value is expected, and the pipes are
    configured. *)
Theorem lower_case_headers_skip_the_sha2_check (options : DownloadOptions)
    (response : Response) (destination : string) (p : Pipe) :
  Forall (fun kv => isLowerCaseName (fst kv) = true) (responseHeaders response) ->
  safeGetHeader response "X-Checksum-Sha2" = None
  /\ configurePipes options response destination p
     = setStreams (buildStreams options response destination) true p.
Proof.
  intros Hlow.
  assert (Hnone : safeGetHeader response "X-Checksum-Sha2" = None).
  { unfold safeGetHeader.
    replace (getProperty "X-Checksum-Sha2" (responseHeaders response))
      with (@None ResponseHeader); [reflexivity|].
    induction Hlow as [|[k v] l Hk _ IH]; [reflexivity|].
    cbn [getProperty]. cbn in Hk. now rewrite (lowerCase_is_not_checksum_header k Hk). }
  split; [exact Hnone|]. unfold configurePipes. rewrite Hnone.
  unfold checkSha2. now rewrite bool_decide_eq_false_2 by (intros [x Hx]; discriminate).
Qed.

(** ** The stages, further *)

Lemma buildStreams_shape (options : DownloadOptions) (response : Response)
    (destination : string) :
  exists pre,
    forallb isProgress pre = true
    /\ (pre = []
        \/ exists contentLength,
             onProgress options = true
             /\ safeGetHeader response "content-length" = Some contentLength
             /\ pre = [Progress contentLength 0])
    /\ (buildStreams options response destination = pre ++ [FileOut destination]
        /\ sha512 options = None /\ sha2 options = None
        \/ exists d,
             buildStreams options response destination
             = pre ++ [Digest d; FileOut destination]
             /\ digester d = createHash (algorithm d)
             /\ isValidateOnEnd d = true).
Proof.
  unfold buildStreams.
  set (pre := if onProgress options then _ else _).
  exists pre. split; [|split].
  - subst pre. destruct (onProgress options); [|reflexivity].
    now destruct (safeGetHeader response "content-length").
  - subst pre. destruct (onProgress options); [|now left].
    destruct (safeGetHeader response "content-length") as [cl|]; [|now left].
    right. now exists cl.
  - destruct (sha512 options) as [e512|]; [|destruct (sha2 options) as [e256|]].
    + right. eexists. rewrite <- app_assoc. now repeat split.
    + right. eexists. rewrite <- app_assoc. now repeat split.
    + now left.
Qed.

Lemma write_sink (pre : list Stream) (destination : string) (chunk : Chunk) :
  forallb isProgress pre = true ->
  exists pre',
    forallb isProgress pre' = true
    /\ write (pre ++ [FileOut destination]) chunk = (pre' ++ [FileOut destination], [chunk]).
Proof.
  induction pre as [|s pre IH]; intros Hpre.
  - exists []. split; reflexivity.
  - destruct s as [total n| |]; try discriminate.
    destruct (IH Hpre) as (pre' & Hpre' & Hw).
    exists (Progress total (n + N.of_nat (length chunk)) :: pre').
    split; [exact Hpre'|]. cbn [app write progressTransform]. now rewrite Hw.
Qed.

Lemma finish_sink (pre : list Stream) (destination : string) :
  forallb isProgress pre = true ->
  finish (pre ++ [FileOut destination]) = (pre ++ [FileOut destination], Finished).
Proof.
  induction pre as [|s pre IH]; intros Hpre; [reflexivity|].
  destruct s as [total n| |]; try discriminate.
  cbn [app finish]. now rewrite (IH Hpre).
Qed.

Lemma run_data_sink (chunks : list Chunk) (p : Pipe) (pre : list Stream)
    (destination : string) :
  streams p = pre ++ [FileOut destination] ->
  forallb isProgress pre = true ->
  piped p = true ->
  exists pre',
    forallb isProgress pre' = true
    /\ run p (map Data chunks)
       = appendWritten chunks (setStreams (pre' ++ [FileOut destination]) true p).
Proof.
  revert p pre. induction chunks as [|chunk rest IH]; intros p pre Hs Hpre Hp.
  - exists pre. split; [exact Hpre|]. cbn. unfold appendWritten, setStreams.
    rewrite app_nil_r, <- Hs, <- Hp. now destruct p.
  - destruct (write_sink pre destination chunk Hpre) as (pre1 & Hpre1 & Hw).
    cbn [map]. change (run p (Data chunk :: map Data rest))
      with (run (step p (Data chunk)) (map Data rest)).
    cbn [step]. rewrite Hp, Hs, Hw.
    destruct (IH (appendWritten [chunk]
                    (setStreams (pre1 ++ [FileOut destination]) true p))
                 pre1 eq_refl Hpre1 eq_refl) as (pre' & Hpre' & ->).
    exists pre'. split; [exact Hpre'|].
    unfold appendWritten, setStreams. cbn. now rewrite <- app_assoc.
Qed.

Lemma progress_holds_no_digest (pre : list Stream) (d : DigestTransform) :
  forallb isProgress pre = true -> ~ In (Digest d) pre.
Proof.
  intros Hpre Hin. rewrite forallb_forall in Hpre. now specialize (Hpre _ Hin).
Qed.

(** X17. While the body of a download arrives, whatever stages
    [configurePipes] has built: every chunk received so far has been
    written to the destination, in order and as it came; the callback
    has not been called and the destination has not been closed; and the
    digest stage, if there is one, has hashed exactly those chunks. *)
Theorem chunks_reach_the_destination_in_order (options : DownloadOptions)
    (response : Response) (destination : string) (closeResult0 : option JsError)
    (chunks : list Chunk) :
  checkSha2 (safeGetHeader response "X-Checksum-Sha2") (sha2 options) = None ->
  written (run (configurePipes options response destination (newPipe closeResult0 false))
             (map Data chunks)) = chunks
  /\ callbacks (run (configurePipes options response destination
                       (newPipe closeResult0 false)) (map Data chunks)) = []
  /\ closeCalls (run (configurePipes options response destination
                        (newPipe closeResult0 false)) (map Data chunks)) = 0%nat
  /\ forall d,
       In (Digest d) (streams (run (configurePipes options response destination
                                      (newPipe closeResult0 false)) (map Data chunks))) ->
       digester d = fold_left update chunks (createHash (algorithm d)).
Proof.
  intros Hcheck. unfold configurePipes. rewrite Hcheck.
  set (p0 := setStreams _ true _).
  destruct (buildStreams_shape options response destination)
    as (pre & Hpre & _ & [(Hbuild & _ & _)|(d0 & Hbuild & Hdig & _)]).
  - destruct (run_data_sink chunks p0 pre destination Hbuild Hpre eq_refl)
      as (pre' & Hpre' & ->).
    cbn. repeat split. intros d Hin. apply in_app_or in Hin as [Hin|[Hin|[]]].
    + now destruct (progress_holds_no_digest pre' d Hpre').
    + discriminate Hin.
  - destruct (run_data chunks p0 pre d0 destination Hbuild Hpre eq_refl)
      as (pre' & Hpre' & ->).
    cbn. repeat split. intros d Hin. apply in_app_or in Hin as [Hin|[Hin|[Hin|[]]]].
    + now destruct (progress_holds_no_digest pre' d Hpre').
    + injection Hin as <-. destruct (feed_fields d0 chunks) as [-> _]. cbn.
      now rewrite Hdig.
    + discriminate Hin.
Qed.

(** X18. A download whose pipes are configured and whose body arrives
    whole, hashing to the expected value of its digest stage if it has
    one: the destination has received exactly the chunks of the body, in
    order; its close has been invoked once; the callback has been called
    once, with the result of the close, so that a failing close fails the
    download; and whatever arrives later writes nothing and closes
    nothing. *)
Theorem download_completes_and_closes_once (options : DownloadOptions)
    (response : Response) (destination : string) (closeResult0 : option JsError)
    (chunks : list Chunk) :
  checkSha2 (safeGetHeader response "X-Checksum-Sha2") (sha2 options) = None ->
  (forall d, In (Digest d) (buildStreams options response destination) ->
             digest (fold_left update chunks (createHash (algorithm d))) (encoding d)
             = expected d) ->
  callbacks (run (configurePipes options response destination (newPipe closeResult0 false))
               (bodyEvents chunks)) = [closeResult0]
  /\ completion (run (configurePipes options response destination
                        (newPipe closeResult0 false)) (bodyEvents chunks))
     = settle Pending closeResult0
  /\ forall later,
       written (run (configurePipes options response destination
                       (newPipe closeResult0 false)) (bodyEvents chunks ++ later)) = chunks
       /\ closeCalls (run (configurePipes options response destination
                             (newPipe closeResult0 false)) (bodyEvents chunks ++ later))
          = 1%nat.
Proof.
  intros Hcheck Hmatch.
  unfold configurePipes. rewrite Hcheck.
  set (p0 := setStreams _ true _).
  assert (Hend : piped (run p0 (bodyEvents chunks)) = false
                 /\ closeCalls (run p0 (bodyEvents chunks)) = 1%nat
                 /\ written (run p0 (bodyEvents chunks)) = chunks
                 /\ callbacks (run p0 (bodyEvents chunks)) = [closeResult0]
                 /\ completion (run p0 (bodyEvents chunks)) = settle Pending closeResult0).
  { destruct (buildStreams_shape options response destination)
      as (pre & Hpre & _ & [(Hbuild & _ & _)|(d & Hbuild & Hdig & Hval)]).
    - destruct (run_data_sink chunks p0 pre destination Hbuild Hpre eq_refl)
        as (pre' & Hpre' & Hrun).
      unfold bodyEvents. rewrite run_app, Hrun.
      change (run ?q [End_]) with (step q End_).
      cbn [step appendWritten setStreams piped streams].
      rewrite (finish_sink pre' destination Hpre'). cbn. repeat split; reflexivity.
    - destruct (run_data chunks p0 pre d destination Hbuild Hpre eq_refl)
        as (pre' & Hpre' & Hrun).
      assert (Hd : digest (fold_left update chunks (createHash (algorithm d))) (encoding d)
                   = expected d).
      { apply Hmatch. rewrite Hbuild. apply in_or_app. right. now left. }
      unfold bodyEvents. rewrite run_app, Hrun.
      change (run ?q [End_]) with (step q End_).
      cbn [step appendWritten setStreams piped streams].
      rewrite (finish_digest_stage pre' _ destination Hpre').
      destruct (feed_fields d chunks) as [-> _].
      unfold _flush, validate.
      cbn [isValidateOnEnd _actual expected encoding digester algorithm].
      rewrite Hval, Hdig, Hd, String.eqb_refl. cbn. repeat split; reflexivity. }
  destruct Hend as (Hpiped & Hclose & Hwritten & Hcb & Hcompl).
  split; [exact Hcb|]. split; [exact Hcompl|].
  intros later. rewrite run_app.
  destruct (unpiped_is_inert _ later Hpiped) as (_ & -> & -> & _). auto.
Qed.

Lemma closeCalls_step (p : Pipe) (ev : Event) :
  (piped (step p ev) = true -> piped p = true /\ closeCalls (step p ev) = closeCalls p)
  /\ (closeCalls (step p ev) <= closeCalls p + (if piped p then 1 else 0))%nat.
Proof.
  destruct ev as [chunk| |stage error|error|]; cbn [step].
  - destruct (piped p) eqn:Hp; [|split; [congruence|lia]].
    destruct (write (streams p) chunk). cbn. split; [auto|lia].
  - destruct (piped p) eqn:Hp; [|split; [congruence|lia]].
    destruct (finish (streams p)) as [ss [|e|]]; unfold onFinish, onStreamError; cbn;
      try (destruct (cancelled p); cbn); split; try discriminate; lia.
  - destruct (_ <? _)%nat; [|split; [auto | destruct (piped p); lia]].
    unfold onStreamError. cbn. destruct (cancelled p); cbn;
      (split; [discriminate | destruct (piped p); lia]).
  - cbn. split; [auto | destruct (piped p); lia].
  - cbn. split; [auto | destruct (piped p); lia].
Qed.

Lemma closeCalls_run (events : list Event) (p : Pipe) :
  (closeCalls (run p events) <= closeCalls p + (if piped p then 1 else 0))%nat.
Proof.
  revert p. induction events as [|ev events IH]; intros p; [cbn; lia|].
  change (run p (ev :: events)) with (run (step p ev) events).
  specialize (IH (step p ev)).
  destruct (closeCalls_step p ev) as [Hkeep Hle].
  destruct (piped (step p ev)) eqn:Hp.
  - destruct (Hkeep eq_refl) as [-> Heq]. lia.
  - lia.
Qed.

(** X19. Whatever happens to a download (chunks, ends, errors of stages
    or of the request, cancellation, in any order and number), the close
    of its destination is invoked at most once. *)
Theorem destination_closed_at_most_once (options : DownloadOptions) (response : Response)
    (destination : string) (closeResult0 : option JsError) (cancelled0 : bool)
    (events : list Event) :
  (closeCalls (run (configurePipes options response destination
                      (newPipe closeResult0 cancelled0)) events) <= 1)%nat.
Proof.
  pose proof (closeCalls_run events
                (configurePipes options response destination
                   (newPipe closeResult0 cancelled0))) as H.
  assert (H0 : closeCalls (configurePipes options response destination
                             (newPipe closeResult0 cancelled0)) = 0%nat).
  { unfold configurePipes. now destruct (checkSha2 _ _). }
  rewrite H0 in H. destruct (piped _); lia.
Qed.


(** ** Redaction, further *)

Lemma Json_nested_ind (P : Json -> Prop) :
  P JNull -> (forall b, P (JBool b)) -> (forall n, P (JNum n)) -> (forall s, P (JStr s)) ->
  (forall items, Forall P items -> P (JArr items)) ->
  (forall members, Forall (fun kv => P (snd kv)) members -> P (JObj members)) ->
  forall v, P v.
Proof.
  intros HN HB HZ HS HA HO. fix IH 1.
  intros [|b|n|s|items|members]; [exact HN | apply HB | apply HZ | apply HS | | ].
  - apply HA. induction items as [|v items IHi]; constructor; [apply IH | exact IHi].
  - apply HO. induction members as [|[k v] members IHm]; constructor; [apply IH | exact IHm].
Qed.

Lemma redacted_array (skippedNames : option (gset string)) (items : list Json) :
  redacted skippedNames (JArr items) = forallb (redacted skippedNames) items.
Proof.
  cbn [redacted]. induction items as [|v items IH]; [reflexivity|].
  cbn [forallb]. now rewrite IH.
Qed.

Lemma redacted_object (skippedNames : option (gset string))
    (members : list (string * Json)) :
  redacted skippedNames (JObj members)
  = forallb (fun kv =>
               if isSensitiveName skippedNames (fst kv)
               then match snd kv with
                    | JStr s => String.eqb s placeholder
                    | _ => false
                    end
               else redacted skippedNames (snd kv)) members.
Proof.
  cbn [redacted]. induction members as [|[k v] members IH]; [reflexivity|].
  cbn [forallb fst snd]. now rewrite IH.
Qed.

(** X20. In what [safeStringifyJson] serializes, no property with a
    sensitive name holds anything but the placeholder, at any depth of
    objects and arrays. *)
Theorem nothing_sensitive_is_serialized (skippedNames : option (gset string))
    (name : string) (value : Json) :
  redacted skippedNames (replaceProperty skippedNames name value) = true.
Proof.
  revert name. induction value as [|b|n|s|items IH|members IH] using Json_nested_ind;
    intros name; rewrite replaceProperty_unfold;
    destruct (isSensitiveName skippedNames name); try reflexivity.
  - rewrite redacted_array. apply forallb_forall. intros x Hx.
    apply list_elem_of_In, elem_of_lookup_imap in Hx as (i & v & -> & Hv).
    rewrite Forall_lookup in IH. apply (IH i v Hv).
  - rewrite redacted_object. apply forallb_forall. intros [k x] Hx.
    apply in_map_iff in Hx as ([k' v] & [= <- <-] & Hin). cbn [fst snd].
    rewrite Forall_forall in IH. apply list_elem_of_In in Hin.
    specialize (IH _ Hin). cbn [snd] in IH.
    destruct (isSensitiveName skippedNames k') eqn:Hk.
    + rewrite replaceProperty_unfold, Hk. apply String.eqb_refl.
    + apply IH.
Qed.

(** X21. Redacting what has been redacted changes nothing. *)
Theorem redaction_is_idempotent (skippedNames : option (gset string))
    (name : string) (value : Json) :
  replaceProperty skippedNames name (replaceProperty skippedNames name value)
  = replaceProperty skippedNames name value.
Proof.
  revert name. induction value as [|b|n|s|items IH|members IH] using Json_nested_ind;
    intros name; rewrite (replaceProperty_unfold _ name);
    destruct (isSensitiveName skippedNames name) eqn:Hname;
    try (rewrite replaceProperty_unfold, Hname; reflexivity).
  - rewrite replaceProperty_unfold, Hname. f_equal.
    apply list_eq. intros i. rewrite !list_lookup_imap.
    destruct (items !! i) as [v|] eqn:Hv; [|reflexivity]. cbn.
    rewrite Forall_lookup in IH. now rewrite (IH i v Hv).
  - rewrite replaceProperty_unfold, Hname. f_equal.
    rewrite map_map. apply map_ext_in. intros [k v] Hin. cbn [fst snd].
    rewrite Forall_forall in IH. apply list_elem_of_In in Hin.
    specialize (IH _ Hin). cbn [snd] in IH. now rewrite IH.
Qed.

(** ** The encoding of a SHA-512 value, further *)

Lemma hex_digit_is_allowed (c : ascii) :
  isHexDigit c = true -> isForbiddenHexChar c = false.
Proof.
  unfold isHexDigit, isForbiddenHexChar. intros H.
  destruct (Ascii.eqb_spec c "+") as [->|_]; [discriminate H|].
  destruct (Ascii.eqb_spec c "Z") as [->|_]; [discriminate H|].
  destruct (Ascii.eqb_spec c "=") as [->|_]; [discriminate H|].
  reflexivity.
Qed.

(** X22. A string of 128 hexadecimal digits, of either case, is taken as
    hex; every string of another length, and every string that contains
    [=], [+] or [Z], is taken as base64. *)
Theorem hex_strings_are_hex (expected0 : string) :
  (String.length expected0 = 128%nat ->
   forallb isHexDigit (chars expected0) = true ->
   sha512Encoding expected0 = Hex)
  /\ (String.length expected0 <> 128%nat -> sha512Encoding expected0 = Base64)
  /\ (forall c, In c (chars expected0) -> isForbiddenHexChar c = true ->
                sha512Encoding expected0 = Base64).
Proof.
  unfold sha512Encoding. rewrite !includes_char.
  rewrite <- !andb_assoc.
  rewrite (andb_assoc (negb (existsb (Ascii.eqb "+") (chars expected0)))).
  rewrite forbidden_chars_absent.
  split; [|split].
  - intros Hlen Hhex. rewrite Hlen. cbn [Nat.eqb andb].
    replace (forallb _ (chars expected0)) with true; [reflexivity|].
    symmetry. apply forallb_forall. intros c Hc.
    rewrite forallb_forall in Hhex. now rewrite (hex_digit_is_allowed c (Hhex c Hc)).
  - intros Hlen. apply Nat.eqb_neq in Hlen. now rewrite Hlen.
  - intros c Hc Hbad.
    replace (forallb _ (chars expected0)) with false; [now rewrite andb_false_r|].
    symmetry. apply not_true_is_false. intros Hall.
    rewrite forallb_forall in Hall. specialize (Hall c Hc). now rewrite Hbad in Hall.
Qed.


(** ** The headers of an error message *)

Lemma string_app_nil_r (s : string) : s +:+ "" = s.
Proof. induction s as [|c s IH]; [reflexivity|]. now rewrite append_cons, IH. Qed.

Lemma chars_app (a b : string) : chars (a +:+ b) = chars a ++ chars b.
Proof. induction a as [|c a IH]; [reflexivity|]. rewrite append_cons. cbn. now rewrite IH. Qed.

Lemma chars_of_uint (d : Decimal.uint) :
  forallb isDigit (chars (NilEmpty.string_of_uint d)) = true.
Proof. induction d; cbn; auto. Qed.

(** A name made of digits has no occurrence of a pattern that starts
    with a letter. *)
Lemma digits_exclude (s : string) (c : ascii) (pattern : string) :
  forallb isDigit (chars s) = true ->
  isDigit c = false ->
  includes s (String c pattern) = false /\ endsWith s (String c pattern) = false.
Proof.
  intros Hs Hc.
  assert (Hnot : forall a b, s <> a +:+ String c pattern +:+ b).
  { intros a b ->. rewrite chars_app in Hs. rewrite forallb_app in Hs.
    apply andb_true_iff in Hs as [_ Hs]. rewrite append_cons in Hs.
    cbn [chars forallb] in Hs.
    rewrite Hc in Hs. discriminate. }
  split; apply not_true_is_false; intros H.
  - apply includes_spec in H as (a & b & ->). now apply (Hnot a b).
  - apply endsWith_spec in H as (a & ->). apply (Hnot a "").
    now rewrite string_app_nil_r.
Qed.

Lemma index_is_not_sensitive (i : nat) : isSensitiveName None (ofNat i) = false.
Proof.
  unfold isSensitiveName, ofNat.
  pose proof (chars_of_uint (Nat.to_uint i)) as Hd.
  destruct (digits_exclude _ "a" "uthorization" Hd eq_refl) as [_ ->].
  destruct (digits_exclude _ "P" "assword" Hd eq_refl) as [_ ->].
  destruct (digits_exclude _ "P" "ASSWORD" Hd eq_refl) as [_ ->].
  destruct (digits_exclude _ "T" "oken" Hd eq_refl) as [_ ->].
  destruct (digits_exclude _ "p" "assword" Hd eq_refl) as [-> _].
  destruct (digits_exclude _ "t" "oken" Hd eq_refl) as [-> _].
  reflexivity.
Qed.

Lemma header_value_kept (name : string) (h : ResponseHeader) :
  replaceProperty None name (jsonOfResponseHeader h)
  = if isSensitiveName None name then JStr placeholder else jsonOfResponseHeader h.
Proof.
  rewrite replaceProperty_unfold. destruct (isSensitiveName None name); [reflexivity|].
  destruct h as [s|l]; [reflexivity|]. cbn [jsonOfResponseHeader]. f_equal.
  apply list_eq. intros i. rewrite list_lookup_imap, !list_lookup_fmap.
  destruct (l !! i) as [s|]; [|reflexivity]. cbn.
  now rewrite index_is_not_sensitive.
Qed.

(** X23. The headers that [createHttpError] prints in the message of an
    error: each header of the response is printed under its name, with
    all its values, or with the placeholder in place of its values when
    its name is sensitive; whether a value is printed depends on the name
    of the header alone, never on the value or on its position in a
    list of values. *)
Theorem error_message_headers (response : Response) (description : option Json) :
  (exists status text,
     createHttpError response description
     = HttpError status
         (text +:+ newline +:+ "Headers: "
          +:+ stringify
                (JObj (map (fun kv =>
                              (fst kv,
                               if isSensitiveName None (fst kv) then JStr placeholder
                               else jsonOfResponseHeader (snd kv)))
                         (responseHeaders response))))
         description)
  /\ isSensitiveName None "set-cookie" = false
  /\ isSensitiveName None "proxy-authorization" = true
  /\ isSensitiveName None "x-auth-token" = true.
Proof.
  split; [|repeat split; vm_compute; reflexivity].
  unfold createHttpError, safeStringifyJson, redact, jsonOfResponseHeaders.
  eexists _,
    (template (ofZ <$> statusCode response) +:+ " " +:+ template (statusMessage response)
     +:+ match description with
         | None | Some JNull => ""
         | Some d => newline +:+ stringify d
         end).
  rewrite !string_app_assoc.
  assert (Hheaders :
    replaceProperty None ""
      (JObj (map (fun kv => (fst kv, jsonOfResponseHeader (snd kv)))
               (responseHeaders response)))
    = JObj (map (fun kv =>
                   (fst kv,
                    if isSensitiveName None (fst kv) then JStr placeholder
                    else jsonOfResponseHeader (snd kv)))
              (responseHeaders response))).
  { rewrite replaceProperty_unfold.
    replace (isSensitiveName None "") with false by (vm_compute; reflexivity).
    f_equal. rewrite map_map. apply map_ext. intros [k h]. cbn [fst snd].
    now rewrite header_value_kept. }
  now rewrite Hheaders.
Qed.


End Platform.

(** * The properties on the small platform *)

Local Abbreviation prepare :=
  (prepareRedirectUrlOptions Fixture.parseUrl Fixture.hostnameOfURL false).
Local Abbreviation download :=
  (doDownload Fixture.parseUrl Fixture.hostnameOfURL false Fixture.Hash Fixture.createHash).
Local Abbreviation request :=
  (doApiRequest Fixture.parseUrl Fixture.hostnameOfURL false Fixture.stringify
     Fixture.parseJsonText Fixture.gunzip).
Local Abbreviation pipes := (configurePipes Fixture.Hash Fixture.createHash).
Local Abbreviation running := (run Fixture.Hash Fixture.update Fixture.digest).
Local Abbreviation fresh := (newPipe Fixture.Hash None false).
Local Abbreviation sha512Transform expected :=
  (newDigestTransform Fixture.Hash Fixture.createHash expected "sha512"
     (sha512Encoding expected)).

Lemma fixture_chain_download (n : nat) :
  Forall isDownloadRedirect (replicate n (Fixture.redirectTo "https://other.example.com/file")).
Proof. apply Forall_replicate. split; [reflexivity | now exists "https://other.example.com/file"]. Qed.

Lemma fixture_chain_api (n : nat) :
  Forall isApiRedirect (replicate n (Fixture.redirectTo "https://other.example.com/file")).
Proof.
  apply Forall_replicate. repeat split; try discriminate.
  now exists "https://other.example.com/file".
Qed.

(** However long a chain of redirects is, a download follows it to its
    end: every request is issued under the counter the download started
    with, and the bound is never reached. *)
Lemma download_follows_any_chain (n : nat) :
  downloadState Fixture.Hash (download (Fixture.redirectChain n) Fixture.plainOptions
                                "out" 0 Fixture.noChecksum fresh)
  = Handled Fixture.Hash (setStreams Fixture.Hash [FileOut Fixture.Hash "out"] true fresh)
  /\ length (downloadIssued Fixture.Hash
               (download (Fixture.redirectChain n) Fixture.plainOptions
                  "out" 0 Fixture.noChecksum fresh)) = S n
  /\ Forall (fun i => issuedRedirectCount i = 0%Z)
       (downloadIssued Fixture.Hash
          (download (Fixture.redirectChain n) Fixture.plainOptions
             "out" 0 Fixture.noChecksum fresh)).
Proof.
  split; [|split; [|apply doDownload_counter]];
    destruct (doDownload_follows Fixture.parseUrl Fixture.hostnameOfURL false
                Fixture.Hash Fixture.createHash
                (replicate n (Fixture.redirectTo "https://other.example.com/file"))
                [Fixture.okResponse] Fixture.plainOptions "out" 0 Fixture.noChecksum fresh
                (fixture_chain_download n) eq_refl eq_refl)
      as (finalOptions & _ & Hstate & Hlen); unfold Fixture.redirectChain.
  - rewrite Hstate. reflexivity.
  - rewrite Hlen, length_replicate. cbn. lia.
Qed.

(** And so does an API request. *)
Lemma request_follows_any_chain (n : nat) :
  apiOutcome (request (Fixture.redirectChain n) Fixture.plainOptions 0)
  = Resolved (Some "hello")
  /\ length (apiIssued (request (Fixture.redirectChain n) Fixture.plainOptions 0)) = S n
  /\ Forall (fun i => issuedRedirectCount i = 0%Z)
       (apiIssued (request (Fixture.redirectChain n) Fixture.plainOptions 0)).
Proof.
  assert (Hbound : (0 <= 10)%Z) by lia.
  split; [|split; [|apply doApiRequest_counter]];
    destruct (doApiRequest_follows Fixture.parseUrl Fixture.hostnameOfURL false
                Fixture.stringify Fixture.parseJsonText Fixture.gunzip
                (replicate n (Fixture.redirectTo "https://other.example.com/file"))
                [Fixture.okResponse] Fixture.plainOptions 0
                (fixture_chain_api n) eq_refl Hbound)
      as (finalOptions & _ & Hgzip & Hout & Hlen); unfold Fixture.redirectChain.
  - rewrite Hout. cbn [doApiRequest apiOutcome]. unfold handleResponse, readBody.
    rewrite !bool_decide_eq_false_2 by discriminate.
    cbn in Hgzip. rewrite Hgzip. reflexivity.
  - rewrite Hlen, length_replicate. cbn [doApiRequest apiIssued]. unfold handleResponse.
    rewrite !bool_decide_eq_false_2 by discriminate. cbn. lia.
Qed.

(** C1, on the code. A chain of 11 redirect responses followed by a
    response with a body does not fail: the download configures its
    pipes on the twelfth response and the request resolves with its
    body; twelve requests are issued, each of them under hop counter 0,
    so the test against the maximum of 10 never fires. *)
Theorem eleven_redirects_are_followed :
  downloadState Fixture.Hash (download (Fixture.redirectChain 11) Fixture.plainOptions
                                "out" 0 Fixture.noChecksum fresh)
  = Handled Fixture.Hash (setStreams Fixture.Hash [FileOut Fixture.Hash "out"] true fresh)
  /\ map issuedRedirectCount
       (downloadIssued Fixture.Hash
          (download (Fixture.redirectChain 11) Fixture.plainOptions
             "out" 0 Fixture.noChecksum fresh))
     = replicate 12 0%Z
  /\ apiOutcome (request (Fixture.redirectChain 11) Fixture.plainOptions 0)
     = Resolved (Some "hello")
  /\ map issuedRedirectCount
       (apiIssued (request (Fixture.redirectChain 11) Fixture.plainOptions 0))
     = replicate 12 0%Z.
Proof.
  destruct (download_follows_any_chain 11) as (Hd & _ & _).
  destruct (request_follows_any_chain 11) as (Ha & _ & _).
  split; [exact Hd|]. split; [vm_compute; reflexivity|].
  split; [exact Ha|]. vm_compute; reflexivity.
Qed.

(** The bound is compared with the counter a call starts with: a
    download started at the maximum fails on its first redirect. *)
Example redirect_at_the_bound_fails :
  downloadState Fixture.Hash
    (download (Fixture.redirectChain 1) Fixture.plainOptions "out" 10 Fixture.noChecksum fresh)
  = Handled Fixture.Hash
      (callback Fixture.Hash (Some (PlainError "Too many redirects (> 10)")) fresh)
  /\ apiOutcome (request (Fixture.redirectChain 1) Fixture.plainOptions 11)
     = Rejected (PlainError "Too many redirects (> 10)").
Proof. split; vm_compute; reflexivity. Qed.

(** A redirect from [api.example.com] with [token XYZ] to a storage host
    drops the header; to [other.example.com] keeps it. *)
Lemma redirect_authorization_rule_witness :
  (exists newOptions hs',
     prepare "https://bucket.s3.amazonaws.com/file" Fixture.apiOptions = Ok newOptions
     /\ headers newOptions = Some hs'
     /\ hs' !! "authorization" = None)
  /\ (exists newOptions hs',
        prepare "https://other.example.com/file" Fixture.apiOptions = Ok newOptions
        /\ headers newOptions = Some hs'
        /\ hs' !! "authorization" = Some (HStr "token XYZ")).
Proof.
  split.
  - apply (redirect_authorization_rule Fixture.parseUrl Fixture.hostnameOfURL false
             "https://bucket.s3.amazonaws.com/file" Fixture.apiOptions
             (<["authorization" := HStr "token XYZ"]>
                (<["Cache-Control" := HStr "max-age=0"]> ∅))
             "token XYZ" "bucket.s3.amazonaws.com"); reflexivity.
  - apply (redirect_authorization_rule Fixture.parseUrl Fixture.hostnameOfURL false
             "https://other.example.com/file" Fixture.apiOptions
             (<["authorization" := HStr "token XYZ"]>
                (<["Cache-Control" := HStr "max-age=0"]> ∅))
             "token XYZ" "other.example.com"); reflexivity.
Defined.

(** C2, against the claim as stated: a token under the header name
    [Authorization] is carried to a storage host, and with a token a
    redirect to a bare path, which names no other host, yields no
    request at all. *)
Lemma capitalised_authorization_is_kept :
  (exists newOptions hs',
     prepare "https://bucket.s3.amazonaws.com/file" Fixture.capitalisedOptions
     = Ok newOptions
     /\ hostname newOptions = Some "bucket.s3.amazonaws.com"
     /\ headers newOptions = Some hs'
     /\ hs' !! "Authorization" = Some (HStr "token XYZ"))
  /\ prepare "/next" Fixture.apiOptions = Throw (TypeError "Invalid URL").
Proof.
  split; [|reflexivity].
  eexists _, _. split; [reflexivity|]. repeat split; reflexivity.
Qed.

(** The rebuilt options of a redirect from [api.example.com:8443] to
    [mirror.example.com:8080]. *)
Lemma redirect_rebuild_frame_witness :
  protocol (configureRequestOptionsFromUrl Fixture.parseUrl false
              "http://mirror.example.com:8080/file" Fixture.apiOptions)
  = (if bool_decide (urlProtocol (Fixture.parseUrl "http://mirror.example.com:8080/file")
                     = None) && false
     then Some "https:"
     else urlProtocol (Fixture.parseUrl "http://mirror.example.com:8080/file"))
  /\ hostname (configureRequestOptionsFromUrl Fixture.parseUrl false
                 "http://mirror.example.com:8080/file" Fixture.apiOptions)
     = urlHostname (Fixture.parseUrl "http://mirror.example.com:8080/file")
  /\ path (configureRequestOptionsFromUrl Fixture.parseUrl false
             "http://mirror.example.com:8080/file" Fixture.apiOptions)
     = urlPath (Fixture.parseUrl "http://mirror.example.com:8080/file")
  /\ port (configureRequestOptionsFromUrl Fixture.parseUrl false
             "http://mirror.example.com:8080/file" Fixture.apiOptions)
     = PortStr <$> urlPort (Fixture.parseUrl "http://mirror.example.com:8080/file")
  /\ method (configureRequestOptionsFromUrl Fixture.parseUrl false
               "http://mirror.example.com:8080/file" Fixture.apiOptions)
     = method Fixture.apiOptions
  /\ gzip (configureRequestOptionsFromUrl Fixture.parseUrl false
             "http://mirror.example.com:8080/file" Fixture.apiOptions)
     = gzip Fixture.apiOptions
  /\ others (configureRequestOptionsFromUrl Fixture.parseUrl false
               "http://mirror.example.com:8080/file" Fixture.apiOptions)
     = others Fixture.apiOptions
  /\ exists hs',
       headers (configureRequestOptionsFromUrl Fixture.parseUrl false
                  "http://mirror.example.com:8080/file" Fixture.apiOptions) = Some hs'
       /\ hs' !! "Cache-Control" = Some (HStr "no-cache")
       /\ hs' !! "User-Agent"
          = Some (default (HStr "electron-builder")
                    (default ∅ (headers Fixture.apiOptions) !! "User-Agent"))
       /\ (hs' !! "authorization" = default ∅ (headers Fixture.apiOptions) !! "authorization"
           \/ hs' !! "authorization" = None)
       /\ forall name,
            name <> "User-Agent" -> name <> "Cache-Control" -> name <> "authorization" ->
            hs' !! name = default ∅ (headers Fixture.apiOptions) !! name.
Proof.
  apply (redirect_rebuild_frame Fixture.parseUrl Fixture.hostnameOfURL false
           "http://mirror.example.com:8080/file" Fixture.apiOptions).
  reflexivity.
Defined.

(** C10, against the claim as stated: a prior [Cache-Control] header is
    not carried over by a redirect rebuild, it is overwritten, and a
    [User-Agent] header appears that the prior options did not have;
    under Electron a redirect to a bare path gets the protocol [https:],
    which is not in the redirect URL. *)
Lemma redirect_overwrites_cache_control :
  default ∅ (headers Fixture.apiOptions) !! "Cache-Control" = Some (HStr "max-age=0")
  /\ default ∅ (headers Fixture.apiOptions) !! "User-Agent" = None
  /\ (exists newOptions hs',
        prepare "https://other.example.com/file" Fixture.apiOptions = Ok newOptions
        /\ headers newOptions = Some hs'
        /\ hs' !! "Cache-Control" = Some (HStr "no-cache")
        /\ hs' !! "User-Agent" = Some (HStr "electron-builder"))
  /\ urlProtocol (Fixture.parseUrl "/next") = None
  /\ exists newOptions,
       prepareRedirectUrlOptions Fixture.parseUrl Fixture.hostnameOfURL true
         "/next" Fixture.plainOptions = Ok newOptions
       /\ protocol newOptions = Some "https:".
Proof.
  split; [reflexivity|]. split; [reflexivity|]. split.
  - eexists _, _. split; [reflexivity|]. repeat split; reflexivity.
  - split; [reflexivity|]. eexists. split; reflexivity.
Qed.


Lemma fixture_update_nil (h : Fixture.Hash) : Fixture.update h [] = h.
Proof. reflexivity. Qed.

Lemma fixture_update_app (h : Fixture.Hash) (a b : Chunk) :
  Fixture.update (Fixture.update h a) b = Fixture.update h (a ++ b).
Proof. unfold Fixture.update. now rewrite fold_left_app. Qed.

(** Six hashed as [1] then [2; 3], or in one piece. *)
Lemma digest_chunking_invariance_witness :
  snd (feed Fixture.Hash Fixture.update
         (newDigestTransform Fixture.Hash Fixture.createHash "6" "sha256" Hex)
         [[Byte.x01]; [Byte.x02; Byte.x03]])
  = [[Byte.x01]; [Byte.x02; Byte.x03]]
  /\ _actual Fixture.Hash
       (fst (_flush Fixture.Hash Fixture.digest
               (fst (feed Fixture.Hash Fixture.update
                       (newDigestTransform Fixture.Hash Fixture.createHash "6" "sha256" Hex)
                       [[Byte.x01]; [Byte.x02; Byte.x03]]))))
     = Some (Fixture.digest
               (Fixture.update (Fixture.createHash "sha256")
                  (concat [[Byte.x01]; [Byte.x02; Byte.x03]])) Hex)
  /\ (forall chunks',
        concat chunks' = concat [[Byte.x01]; [Byte.x02; Byte.x03]] ->
        _flush Fixture.Hash Fixture.digest
          (fst (feed Fixture.Hash Fixture.update
                  (newDigestTransform Fixture.Hash Fixture.createHash "6" "sha256" Hex)
                  chunks'))
        = _flush Fixture.Hash Fixture.digest
            (fst (feed Fixture.Hash Fixture.update
                    (newDigestTransform Fixture.Hash Fixture.createHash "6" "sha256" Hex)
                    [[Byte.x01]; [Byte.x02; Byte.x03]])))
  /\ ("6" = Fixture.digest
              (Fixture.update (Fixture.createHash "sha256")
                 (concat [[Byte.x01]; [Byte.x02; Byte.x03]])) Hex ->
      snd (_flush Fixture.Hash Fixture.digest
             (fst (feed Fixture.Hash Fixture.update
                     (newDigestTransform Fixture.Hash Fixture.createHash "6" "sha256" Hex)
                     [[Byte.x01]; [Byte.x02; Byte.x03]])))
      = None).
Proof.
  exact (digest_chunking_invariance Fixture.Hash Fixture.createHash Fixture.update
           Fixture.digest fixture_update_nil fixture_update_app "6" "sha256" Hex
           [[Byte.x01]; [Byte.x02; Byte.x03]]).
Defined.

(** A body that sums to 3 against an expected [999]. *)
Lemma checksum_mismatch_reported_sink_not_closed_witness :
  callbacks Fixture.Hash
    (running (pipes Fixture.withSha512 Fixture.okResponse "out" fresh)
       (bodyEvents [[Byte.x01]; [Byte.x02]]))
  = [Some (CodedError "sha512 checksum mismatch, expected 999, got 3"
             "ERR_CHECKSUM_MISMATCH")]
  /\ completion Fixture.Hash
       (running (pipes Fixture.withSha512 Fixture.okResponse "out" fresh)
          (bodyEvents [[Byte.x01]; [Byte.x02]]))
     = RejectedWith (CodedError "sha512 checksum mismatch, expected 999, got 3"
                       "ERR_CHECKSUM_MISMATCH")
  /\ written Fixture.Hash
       (running (pipes Fixture.withSha512 Fixture.okResponse "out" fresh)
          (bodyEvents [[Byte.x01]; [Byte.x02]]))
     = [[Byte.x01]; [Byte.x02]]
  /\ forall later,
       closeCalls Fixture.Hash
         (running (pipes Fixture.withSha512 Fixture.okResponse "out" fresh)
            (bodyEvents [[Byte.x01]; [Byte.x02]] ++ later)) = 0%nat.
Proof.
  apply (checksum_mismatch_reported_sink_not_closed Fixture.Hash Fixture.createHash
           Fixture.update Fixture.digest Fixture.withSha512 Fixture.okResponse "out" None
           (sha512Transform "999") [[Byte.x01]; [Byte.x02]]).
  - reflexivity.
  - left. reflexivity.
  - vm_compute. discriminate.
Defined.

(** A body that hashes to the expected value is written, and the
    destination is closed once; the callback gets the result of the
    close. *)
Example matching_digest_completes :
  callbacks Fixture.Hash
    (running (pipes (mkDownloadOptions None false None (Some "3") true)
                (mkResponse (Some 200%Z) (Some "OK") [("content-length", Single "2")] [])
                "out" fresh)
       (bodyEvents [[Byte.x01]; [Byte.x02]])) = [None]
  /\ closeCalls Fixture.Hash
       (running (pipes (mkDownloadOptions None false None (Some "3") true)
                   (mkResponse (Some 200%Z) (Some "OK") [("content-length", Single "2")] [])
                   "out" fresh)
          (bodyEvents [[Byte.x01]; [Byte.x02]])) = 1%nat
  /\ streams Fixture.Hash
       (running (pipes (mkDownloadOptions None false None (Some "3") true)
                   (mkResponse (Some 200%Z) (Some "OK") [("content-length", Single "2")] [])
                   "out" fresh)
          (bodyEvents [[Byte.x01]; [Byte.x02]]))
     = [Progress Fixture.Hash "2" 2;
        Digest Fixture.Hash
          (mkDigestTransform Fixture.Hash "3" "sha512" Base64 3%N (Some "3") true);
        FileOut Fixture.Hash "out"].
Proof. repeat split; vm_compute; reflexivity. Qed.

(** C3, against the claim as stated: after a checksum mismatch the close
    of the destination has been invoked zero times, not once. *)
Lemma mismatch_leaves_destination_unclosed :
  callbacks Fixture.Hash
    (running (pipes Fixture.withSha512 Fixture.okResponse "out" fresh)
       (bodyEvents [[Byte.x01]; [Byte.x02]]))
  = [Some (CodedError "sha512 checksum mismatch, expected 999, got 3"
             "ERR_CHECKSUM_MISMATCH")]
  /\ closeCalls Fixture.Hash
       (running (pipes Fixture.withSha512 Fixture.okResponse "out" fresh)
          (bodyEvents [[Byte.x01]; [Byte.x02]])) = 0%nat
  /\ closeCalls Fixture.Hash
       (running (pipes Fixture.noChecksum Fixture.okResponse "out" fresh)
          (bodyEvents [[Byte.x01]; [Byte.x02]])) = 1%nat.
Proof. repeat split; vm_compute; reflexivity. Qed.

(** A mismatching header, and the check on a response without one. *)
Lemma sha2_header_checked_when_present_witness :
  (forall header closeResult0 cancelled0 events,
     safeGetHeader (Fixture.sha2Response "def") "X-Checksum-Sha2" = Some header ->
     header <> "abc" ->
     callbacks Fixture.Hash
       (pipes Fixture.withSha2 (Fixture.sha2Response "def") "out"
          (newPipe Fixture.Hash closeResult0 cancelled0))
     = [Some (PlainError ("checksum mismatch: expected " +:+ "abc" +:+ " but got "
                          +:+ header +:+ " (X-Checksum-Sha2 header)"))]
     /\ streams Fixture.Hash
          (pipes Fixture.withSha2 (Fixture.sha2Response "def") "out"
             (newPipe Fixture.Hash closeResult0 cancelled0)) = []
     /\ written Fixture.Hash
          (running (pipes Fixture.withSha2 (Fixture.sha2Response "def") "out"
                      (newPipe Fixture.Hash closeResult0 cancelled0)) events) = [])
  /\ (safeGetHeader (Fixture.sha2Response "def") "X-Checksum-Sha2" = None ->
      checkSha2 None (Some "abc") = None
      /\ forall p, pipes Fixture.withSha2 (Fixture.sha2Response "def") "out" p
                   = setStreams Fixture.Hash
                       (buildStreams Fixture.Hash Fixture.createHash Fixture.withSha2
                          (Fixture.sha2Response "def") "out") true p).
Proof.
  apply (sha2_header_checked_when_present Fixture.Hash Fixture.createHash Fixture.update
           Fixture.digest Fixture.withSha2 (Fixture.sha2Response "def") "out" "abc").
  reflexivity.
Defined.

(** C7, against the claim as stated: with an expected SHA-256 value and
    no [X-Checksum-Sha2] header the callback is not called, and the
    first chunk is written to the destination. *)
Lemma missing_sha2_header_is_accepted :
  safeGetHeader Fixture.okResponse "X-Checksum-Sha2" = None
  /\ checkSha2 None (Some "abc") = None
  /\ callbacks Fixture.Hash (pipes Fixture.withSha2 Fixture.okResponse "out" fresh) = []
  /\ written Fixture.Hash
       (running (pipes Fixture.withSha2 Fixture.okResponse "out" fresh) [Data [Byte.x01]])
     = [[Byte.x01]].
Proof. repeat split; vm_compute; reflexivity. Qed.

(** A download cancelled before a chunk, a failing stage, a checksum
    mismatch and a socket error arrive. *)
Lemma cancellation_wins_witness :
  completion Fixture.Hash
    (running (pipes Fixture.withSha512 Fixture.okResponse "out" fresh)
       (Cancel :: [Data [Byte.x01]; StreamError 1 (PlainError "EIO");
                   RequestError (PlainError "socket hang up"); End_]))
  = RejectedWith CancellationError
  /\ exists surfaced,
       callbacks Fixture.Hash
         (running (pipes Fixture.withSha512 Fixture.okResponse "out" fresh)
            (Cancel :: [Data [Byte.x01]; StreamError 1 (PlainError "EIO");
                        RequestError (PlainError "socket hang up"); End_]))
       = callbacks Fixture.Hash (pipes Fixture.withSha512 Fixture.okResponse "out" fresh)
         ++ surfaced
       /\ Forall (fun r =>
                    r = closeResult Fixture.Hash
                          (pipes Fixture.withSha512 Fixture.okResponse "out" fresh)
                    \/ exists e, r = Some e
                         /\ In (RequestError e)
                              [Data [Byte.x01]; StreamError 1 (PlainError "EIO");
                               RequestError (PlainError "socket hang up"); End_])
            surfaced.
Proof.
  apply (cancellation_wins Fixture.Hash Fixture.update Fixture.digest
           (pipes Fixture.withSha512 Fixture.okResponse "out" fresh)
           [Data [Byte.x01]; StreamError 1 (PlainError "EIO");
            RequestError (PlainError "socket hang up"); End_]).
  reflexivity.
Defined.

(** * The further properties on the small platform *)

(** Basic credentials redirected to a storage host. *)
Lemma no_token_for_storage_host_witness :
  startsWith "Basic dXNlcg" "token" = false.
Proof.
  eapply (no_token_for_storage_host Fixture.parseUrl Fixture.hostnameOfURL false
            "https://bucket.s3.amazonaws.com/file" "bucket.s3.amazonaws.com"
            Fixture.basicOptions
            (configureRequestOptionsFromUrl Fixture.parseUrl false
               "https://bucket.s3.amazonaws.com/file" Fixture.basicOptions));
    reflexivity.
Defined.

(** The token [XYZ] and the credentials [Basic dXNlcg], configured and
    then redirected to a storage host. *)
Lemma configured_token_across_redirect_witness :
  (exists newOptions hs',
     prepare "https://bucket.s3.amazonaws.com/file"
       (configureRequestOptions false Fixture.plainOptions (Some "XYZ") (Some "PUT"))
     = Ok newOptions
     /\ headers newOptions = Some hs'
     /\ hs' !! "authorization" = None)
  /\ (exists newOptions hs',
        prepare "https://bucket.s3.amazonaws.com/file"
          (configureRequestOptions false Fixture.plainOptions (Some "Basic dXNlcg")
             (Some "PUT"))
        = Ok newOptions
        /\ headers newOptions = Some hs'
        /\ hs' !! "authorization" = Some (HStr "Basic dXNlcg")).
Proof.
  split.
  - apply (configured_token_across_redirect Fixture.parseUrl Fixture.hostnameOfURL false
             Fixture.plainOptions "XYZ" (Some "PUT")
             "https://bucket.s3.amazonaws.com/file" "bucket.s3.amazonaws.com");
      reflexivity.
  - apply (configured_token_across_redirect Fixture.parseUrl Fixture.hostnameOfURL false
             Fixture.plainOptions "Basic dXNlcg" (Some "PUT")
             "https://bucket.s3.amazonaws.com/file" "bucket.s3.amazonaws.com");
      reflexivity.
Defined.

(** A download with basic credentials, redirected to a storage host. *)
Lemma no_token_along_the_chain_witness :
  startsWith "Basic dXNlcg" "token" = false.
Proof.
  eapply (no_token_along_the_chain Fixture.parseUrl Fixture.hostnameOfURL false
            Fixture.stringify Fixture.parseJsonText Fixture.gunzip
            Fixture.Hash Fixture.createHash
            [Fixture.redirectTo "https://bucket.s3.amazonaws.com/file"; Fixture.okResponse]
            Fixture.basicOptions "out" 0 Fixture.noChecksum fresh 0
            (Fixture.redirectTo "https://bucket.s3.amazonaws.com/file")
            "https://bucket.s3.amazonaws.com/file" "bucket.s3.amazonaws.com"
            (mkIssued (configureRequestOptionsFromUrl Fixture.parseUrl false
                         "https://bucket.s3.amazonaws.com/file" Fixture.basicOptions) 0));
    try reflexivity.
  right. reflexivity.
Defined.

(** A request that resolves with the body of a 200 response. *)
Lemma request_resolves_only_on_success_witness :
  Some "hello" <> Some ""
  /\ exists hops response rest,
       [Fixture.okResponse] = hops ++ response :: rest
       /\ Forall isApiRedirect hops
       /\ length (apiIssued (request [Fixture.okResponse] Fixture.plainOptions 0))
          = S (length hops)
       /\ statusCode response <> Some 404%Z
       /\ statusAtLeast response 400 = false
       /\ (statusCode response = Some 204%Z -> Some "hello" = None)
       /\ (statusCode response <> Some 204%Z ->
           safeGetHeader response "location" = None
           /\ (gzip Fixture.plainOptions = false ->
               Some "hello"
               = if (String.length (fold_left String.append (body response) "") =? 0)%nat
                 then None
                 else Some (fold_left String.append (body response) ""))).
Proof.
  apply (request_resolves_only_on_success Fixture.parseUrl Fixture.hostnameOfURL false
           Fixture.stringify Fixture.parseJsonText Fixture.gunzip
           [Fixture.okResponse] Fixture.plainOptions 0 (Some "hello")).
  vm_compute. reflexivity.
Defined.


(** A 403 response that carries a [location]. *)
Lemma failed_status_ends_the_download_witness :
  exists error,
    download (Fixture.forbiddenResponse :: [Fixture.okResponse]) Fixture.plainOptions
      "out" 0 Fixture.noChecksum fresh
    = mkDownloadRun Fixture.Hash [mkIssued Fixture.plainOptions 0]
        (Handled Fixture.Hash (callback Fixture.Hash (Some error) fresh))
    /\ (forall h pa c m,
          hostname Fixture.plainOptions = Some h -> path Fixture.plainOptions = Some pa ->
          statusCode Fixture.forbiddenResponse = Some c ->
          statusMessage Fixture.forbiddenResponse = Some m ->
          error = PlainError ("Cannot download " +:+ quote
                              +:+ orElse (protocol Fixture.plainOptions) "https:" +:+ "//"
                              +:+ h +:+ pa +:+ quote +:+ ", status " +:+ ofZ c
                              +:+ ": " +:+ m))
    /\ forall events,
         written Fixture.Hash (running (callback Fixture.Hash (Some error) fresh) events)
         = []
         /\ closeCalls Fixture.Hash
              (running (callback Fixture.Hash (Some error) fresh) events) = 0%nat.
Proof.
  apply (failed_status_ends_the_download Fixture.parseUrl Fixture.hostnameOfURL false
           Fixture.Hash Fixture.createHash Fixture.update Fixture.digest
           Fixture.forbiddenResponse [Fixture.okResponse] Fixture.plainOptions "out" 0
           Fixture.noChecksum None false).
  reflexivity.
Defined.

(** A body posted through one redirect. *)
Lemma request_with_body_is_a_post_witness :
  Forall (fun i =>
            method (issuedOptions i) = Some "post"
            /\ default ∅ (headers (issuedOptions i)) !! "Content-Type"
               = Some (HStr "application/json")
            /\ default ∅ (headers (issuedOptions i)) !! "Content-Length"
               = Some (HNum (Fixture.encodedLength (JObj [("tag", JStr "v1")])))
            /\ issuedRedirectCount i = 0%Z)
    (apiIssued
       (HttpExecutor_request Fixture.parseUrl Fixture.hostnameOfURL false
          Fixture.stringify Fixture.parseJsonText Fixture.gunzip Fixture.encodedLength
          (Fixture.redirectChain 1) Fixture.plainOptions
          (Some (JObj [("tag", JStr "v1")])))).
Proof.
  apply (request_with_body_is_a_post Fixture.parseUrl Fixture.hostnameOfURL false
           Fixture.stringify Fixture.parseJsonText Fixture.gunzip Fixture.encodedLength
           (Fixture.redirectChain 1) Fixture.plainOptions (JObj [("tag", JStr "v1")])).
  discriminate.
Defined.

(** A response with the header [x-checksum-sha2], as a parser that
    lowers the case of names delivers it. *)
Lemma lower_case_headers_skip_the_sha2_check_witness :
  safeGetHeader
    (mkResponse (Some 200%Z) (Some "OK") [("x-checksum-sha2", Single "def")] [])
    "X-Checksum-Sha2" = None
  /\ pipes Fixture.withSha2
       (mkResponse (Some 200%Z) (Some "OK") [("x-checksum-sha2", Single "def")] [])
       "out" fresh
     = setStreams Fixture.Hash
         (buildStreams Fixture.Hash Fixture.createHash Fixture.withSha2
            (mkResponse (Some 200%Z) (Some "OK") [("x-checksum-sha2", Single "def")] [])
            "out") true fresh.
Proof.
  apply (lower_case_headers_skip_the_sha2_check Fixture.Hash Fixture.createHash
           Fixture.withSha2
           (mkResponse (Some 200%Z) (Some "OK") [("x-checksum-sha2", Single "def")] [])
           "out" fresh).
  repeat constructor.
Defined.

(** A body that sums to 3, expected to. *)
Lemma download_completes_and_closes_once_witness :
  callbacks Fixture.Hash
    (running (pipes (mkDownloadOptions None false None (Some "3") false)
                Fixture.okResponse "out" fresh)
       (bodyEvents [[Byte.x01]; [Byte.x02]])) = [None]
  /\ completion Fixture.Hash
       (running (pipes (mkDownloadOptions None false None (Some "3") false)
                   Fixture.okResponse "out" fresh)
          (bodyEvents [[Byte.x01]; [Byte.x02]])) = settle Pending None
  /\ forall later,
       written Fixture.Hash
         (running (pipes (mkDownloadOptions None false None (Some "3") false)
                     Fixture.okResponse "out" fresh)
            (bodyEvents [[Byte.x01]; [Byte.x02]] ++ later)) = [[Byte.x01]; [Byte.x02]]
       /\ closeCalls Fixture.Hash
            (running (pipes (mkDownloadOptions None false None (Some "3") false)
                        Fixture.okResponse "out" fresh)
               (bodyEvents [[Byte.x01]; [Byte.x02]] ++ later)) = 1%nat.
Proof.
  apply (download_completes_and_closes_once Fixture.Hash Fixture.createHash
           Fixture.update Fixture.digest
           (mkDownloadOptions None false None (Some "3") false)
           Fixture.okResponse "out" None [[Byte.x01]; [Byte.x02]]).
  - reflexivity.
  - intros d [Hd|[Hd|[]]]; [|discriminate Hd]. injection Hd as <-. reflexivity.
Defined.

(** Two chunks on their way to the destination, before the end. *)
Lemma chunks_reach_the_destination_in_order_witness :
  written Fixture.Hash
    (running (pipes Fixture.withSha512 Fixture.okResponse "out" fresh)
       (map Data [[Byte.x01]; [Byte.x02]])) = [[Byte.x01]; [Byte.x02]]
  /\ callbacks Fixture.Hash
       (running (pipes Fixture.withSha512 Fixture.okResponse "out" fresh)
          (map Data [[Byte.x01]; [Byte.x02]])) = []
  /\ closeCalls Fixture.Hash
       (running (pipes Fixture.withSha512 Fixture.okResponse "out" fresh)
          (map Data [[Byte.x01]; [Byte.x02]])) = 0%nat
  /\ forall d,
       In (Digest Fixture.Hash d)
         (streams Fixture.Hash
            (running (pipes Fixture.withSha512 Fixture.okResponse "out" fresh)
               (map Data [[Byte.x01]; [Byte.x02]]))) ->
       digester Fixture.Hash d
       = fold_left Fixture.update [[Byte.x01]; [Byte.x02]]
           (Fixture.createHash (algorithm Fixture.Hash d)).
Proof.
  apply (chunks_reach_the_destination_in_order Fixture.Hash Fixture.createHash
           Fixture.update Fixture.digest Fixture.withSha512 Fixture.okResponse "out" None
           [[Byte.x01]; [Byte.x02]]).
  reflexivity.
Defined.
